(** * Vayu: the buffer, socket and reactor core

    A shallow embedding of [src/core/buffer.c], [src/core/socket.c] and
    [src/core/server.c] (with the constants and types of [server.h]),
    followed by the properties of the reactor that are checked against it.

    Conventions of the embedding.
    - A C [int] or [ssize_t] is a [Z]; descriptors stay within
      [-1 .. SOCKET_MAX], so none of the [int] arithmetic of the reactor
      can overflow.  A [size_t] is a [Z] reduced modulo [2 ^ SIZE_WIDTH]
      wherever the C code adds.
    - An [int] used as a truth value keeps its C reading: zero is false,
      anything else is true ([truthy]).
    - A pointer that may be [NULL] is an [option]; a function that writes
      through a pointer returns the new pointee next to its result.
    - Everything outside the process (the allocator, the kernel's socket
      queues, the results of [accept], [send] and [select]) is part of an
      explicit [os_t] value, so that every outcome the code has to handle
      can be scripted. *)

From Stdlib Require Import ZArith List Lia Bool Strings.Byte.
From stdpp Require Import base option list gmap sets.

Open Scope Z_scope.

(** ** server.h: constants and the buffer type *)

(** [#define IO_BUF_SIZE (1024)] *)
Definition IO_BUF_SIZE : Z := 1024.

(** [#define INVALID_SOCKET (-1)] *)
Definition INVALID_SOCKET : Z := -1.

(** Width of [size_t] (an LP64 platform). *)
Definition SIZE_WIDTH : Z := 64.

(** Conversion to [size_t]: unsigned arithmetic wraps around. *)
Definition to_size_t (z : Z) : Z := z mod 2 ^ SIZE_WIDTH.

(** C truth value of an [int]. *)
Definition truthy (r : Z) : bool := negb (r =? 0).

(** A heap block that some owner holds: where it lives and what it holds.
    The program never shares a block between two owners (a buffer owns its
    storage, [bufExtract] hands it over), so a pointer to a block is
    modelled together with the block's contents. *)
Record block := Block { blk_addr : positive; blk_bytes : list byte }.

(** [buf_t]: [data] is [None] for [NULL]. *)
Record buf_t := Buf { data : option block; len : Z; size : Z }.

(** ** What lies outside the process *)

(** One result of the allocator [_alloc] (by default [realloc]): [NULL], or
    a block at some address. *)
Inductive alloc_outcome := AllocFail | AllocAt (a : positive).

(** One result of [select]: the descriptors the kernel found readable and
    writable, or an error, with whether [errno] is [EINTR]. *)
Inductive select_outcome :=
| SelectReady (readable writable : gset Z)
| SelectError (errno_is_EINTR : bool).

(** The environment of the process.
    - [alloc_plan]: results of the coming allocator calls (success when
      the plan is used up);
    - [open_fds]: the descriptor table of the process;
    - [rx_queue]: bytes the kernel holds for reading, per descriptor;
      [rx_eof]: descriptors whose peer has shut down (an empty queue then
      reads as end of file, otherwise as an error);
    - [tx_sent]: bytes the kernel accepted for sending, per descriptor;
    - [send_plan]: results of the coming [send] calls (everything is
      accepted when the plan is used up);
    - [accept_plan]: results of the coming [accept] calls, each a return
      value with whether [errno] is [EAGAIN] (no connection is pending
      when the plan is used up);
    - [select_plan]: results of the coming [select] calls (a timeout when
      the plan is used up);
    - [listen_plan]: results of the coming [socketOpenServer] calls. *)
Record os_t := Os {
  alloc_plan : list alloc_outcome;
  open_fds : gset Z;
  rx_queue : gmap Z (list byte);
  rx_eof : gset Z;
  tx_sent : gmap Z (list byte);
  send_plan : list Z;
  accept_plan : list (Z * bool);
  select_plan : list select_outcome;
  listen_plan : list Z
}.

Definition set_alloc_plan (p : list alloc_outcome) (o : os_t) : os_t :=
  Os p (open_fds o) (rx_queue o) (rx_eof o) (tx_sent o) (send_plan o)
     (accept_plan o) (select_plan o) (listen_plan o).

Definition set_open_fds (f : gset Z) (o : os_t) : os_t :=
  Os (alloc_plan o) f (rx_queue o) (rx_eof o) (tx_sent o) (send_plan o)
     (accept_plan o) (select_plan o) (listen_plan o).

Definition set_rx_queue (q : gmap Z (list byte)) (o : os_t) : os_t :=
  Os (alloc_plan o) (open_fds o) q (rx_eof o) (tx_sent o) (send_plan o)
     (accept_plan o) (select_plan o) (listen_plan o).

Definition set_tx (t : gmap Z (list byte)) (p : list Z) (o : os_t) : os_t :=
  Os (alloc_plan o) (open_fds o) (rx_queue o) (rx_eof o) t p
     (accept_plan o) (select_plan o) (listen_plan o).

Definition set_accept_plan (p : list (Z * bool)) (o : os_t) : os_t :=
  Os (alloc_plan o) (open_fds o) (rx_queue o) (rx_eof o) (tx_sent o)
     (send_plan o) p (select_plan o) (listen_plan o).

Definition set_select_plan (p : list select_outcome) (o : os_t) : os_t :=
  Os (alloc_plan o) (open_fds o) (rx_queue o) (rx_eof o) (tx_sent o)
     (send_plan o) (accept_plan o) p (listen_plan o).

Definition set_listen_plan (p : list Z) (o : os_t) : os_t :=
  Os (alloc_plan o) (open_fds o) (rx_queue o) (rx_eof o) (tx_sent o)
     (send_plan o) (accept_plan o) (select_plan o) p.

(** ** buffer.c *)

(** [_alignBufSize(s)]: the next multiple of [IO_BUF_SIZE], in [size_t]. *)
Definition _alignBufSize (s : Z) : Z :=
  to_size_t ((s - s mod IO_BUF_SIZE)
             + (if 0 <? s mod IO_BUF_SIZE then IO_BUF_SIZE else 0)).

(** [_resetBuf(b)] *)
Definition _resetBuf (b : buf_t) : buf_t := Buf None 0 0.

(** [_alloc(ptr, newSize)], a resizing allocator: either [NULL], and then
    the block behind [ptr] stays with the caller as it is, or a block of
    [newSize] bytes that starts with the old contents (cut or padded).  The
    padding bytes stand for uninitialised memory. *)
Definition _alloc (ptr : option block) (newSize : Z) (plan : list alloc_outcome)
  : option block * list alloc_outcome :=
  let old := from_option blk_bytes [] ptr in
  let fresh := resize (Z.to_nat newSize) x00 old in
  match plan with
  | AllocFail :: rest => (None, rest)
  | AllocAt a :: rest => (Some (Block a fresh), rest)
  | [] => (Some (Block (from_option blk_addr 1%positive ptr) fresh), [])
  end.

(** [memcpy(dst + off, src, n)] on the bytes of a block. *)
Definition memcpy_at (dst : list byte) (off : Z) (src : list byte) (n : Z)
  : list byte :=
  take (Z.to_nat off) dst ++ take (Z.to_nat n) src
    ++ drop (Z.to_nat off + Z.to_nat n) dst.

(** [bufAppend(buf, data, len)]: result, the buffer afterwards, and the
    allocator's remaining plan. *)
Definition bufAppend (buf : option buf_t) (src : option (list byte)) (n : Z)
    (plan : list alloc_outcome) : Z * option buf_t * list alloc_outcome :=
  match buf with
  | None => (0, None, plan)
  | Some b =>
    match src with
    | Some bytes =>
      if 0 <? n then
        let newLen := to_size_t (len b + n) in
        let newSize := _alignBufSize newLen in
        let copy (blk : block) :=
          Block (blk_addr blk) (memcpy_at (blk_bytes blk) (len b) bytes n) in
        if size b <? newSize then
          match _alloc (data b) newSize plan with
          | (None, plan') => (0, Some b, plan')
          | (Some newData, plan') =>
            (1, Some (Buf (Some (copy newData)) newLen newSize), plan')
          end
        else (1, Some (Buf (copy <$> data b) newLen (size b)), plan)
      else (1, Some b, plan)
    | None => (1, Some b, plan)
    end
  end.

(** [bufPeek(buf, lenDest)]: the returned pointer and the value of
    [*lenDest] afterwards ([lenDest] is its value before). *)
Definition bufPeek (buf : option buf_t) (lenDest : Z) : option block * Z :=
  match buf with
  | None => (None, lenDest)
  | Some b => (data b, len b)
  end.

(** [bufExtract(buf, lenDest)]: the returned pointer, the value of
    [*lenDest] afterwards, and the buffer afterwards. *)
Definition bufExtract (buf : option buf_t) (lenDest : Z)
  : option block * Z * option buf_t :=
  match buf with
  | None => (None, lenDest, None)
  | Some b => (data b, len b, Some (_resetBuf b))
  end.

(** [bufHasData(buf)] *)
Definition bufHasData (buf : option buf_t) : Z :=
  match buf with
  | None => 0
  | Some b =>
    match data b with
    | Some _ => if 0 <? len b then 1 else 0
    | None => 0
    end
  end.

(** [bufClear(buf)]: the block, if any, goes back to the allocator. *)
Definition bufClear (buf : option buf_t) : option buf_t :=
  match buf with
  | None => None
  | Some b => Some (_resetBuf b)
  end.

(** The bytes a caller reads behind a pointer and a length. *)
Definition bytes_of (p : option block) (n : Z) : list byte :=
  take (Z.to_nat n) (from_option blk_bytes [] p).

(** The bytes a buffer holds. *)
Definition contents (b : buf_t) : list byte := bytes_of (data b) (len b).

(** ** socket.c *)

(** [SOCKET_MAX] is [FD_SETSIZE], which the platform's headers define. *)
Class Platform := { SOCKET_MAX : Z }.

(** The kernel's receive queue of a descriptor. *)
Definition rx_of (o : os_t) (fd : Z) : list byte := default [] (rx_queue o !! fd).

(** [recv(fd, tmpBuf, n, MSG_PEEK)]: the return value and the bytes placed
    in [tmpBuf].  The queue is left as it is. *)
Definition recv_peek (fd : Z) (n : Z) (o : os_t) : Z * list byte :=
  match rx_of o fd with
  | [] => (if bool_decide (fd ∈ rx_eof o) then 0 else -1, [])
  | q => (Z.min n (Z.of_nat (length q)), take (Z.to_nat n) q)
  end.

(** [recv(fd, tmpBuf, n, 0)]: removes [n] bytes from the queue. *)
Definition recv_consume (fd : Z) (n : Z) (o : os_t) : os_t :=
  set_rx_queue (<[fd := drop (Z.to_nat n) (rx_of o fd)]> (rx_queue o)) o.

(** [send(fd, data, len, 0)]: the kernel accepts a prefix, or fails. *)
Definition send (fd : Z) (bytes : list byte) (n : Z) (o : os_t) : Z * os_t :=
  let sent := default [] (tx_sent o !! fd) in
  match send_plan o with
  | [] => (n, set_tx (<[fd := sent ++ take (Z.to_nat n) bytes]> (tx_sent o)) [] o)
  | r :: rest =>
    if r <? 0 then (-1, set_tx (tx_sent o) rest o)
    else
      let w := Z.min r n in
      (w, set_tx (<[fd := sent ++ take (Z.to_nat w) bytes]> (tx_sent o)) rest o)
  end.

(** [accept(fd, NULL, NULL)]: the return value, whether [errno] is
    [EAGAIN], and the kernel afterwards (a new descriptor is open). *)
Definition accept (fd : Z) (o : os_t) : Z * bool * os_t :=
  match accept_plan o with
  | [] => (-1, true, o)
  | (r, eagain) :: rest =>
    (r, eagain,
     set_accept_plan rest
       (if 0 <=? r then set_open_fds ({[r]} ∪ open_fds o) o else o))
  end.

(** [socketOpenServer(host, port)]: address resolution, [bind] and
    [listen] are summed up by their outcome, a listening descriptor or
    [INVALID_SOCKET]. *)
Definition socketOpenServer (o : os_t) : Z * os_t :=
  match listen_plan o with
  | [] => (INVALID_SOCKET, o)
  | r :: rest =>
    if 0 <=? r then (r, set_listen_plan rest (set_open_fds ({[r]} ∪ open_fds o) o))
    else (INVALID_SOCKET, set_listen_plan rest o)
  end.

(** [socketAccept(fd)] *)
Definition socketAccept `{Platform} (fd : Z) (o : os_t) : Z * os_t :=
  let '(newFd, eagain, o1) := accept fd o in
  if 0 <=? newFd then (newFd, o1)
  else if eagain then (SOCKET_MAX, o1)
  else (INVALID_SOCKET, o1).

(** [socketRead(fd, buf)] *)
Definition socketRead (fd : Z) (buf : option buf_t) (o : os_t)
  : Z * option buf_t * os_t :=
  let '(bytesRead, tmpBuf) := recv_peek fd IO_BUF_SIZE o in
  if 0 <? bytesRead then
    let '(ok, buf1, plan1) := bufAppend buf (Some tmpBuf) bytesRead (alloc_plan o) in
    let o1 := set_alloc_plan plan1 o in
    if truthy ok then (1, buf1, recv_consume fd bytesRead o1)
    else (0, buf1, o1)
  else (0, buf, o).

(** [socketWrite(fd, buf)] *)
Definition socketWrite (fd : Z) (buf : option buf_t) (o : os_t)
  : Z * option buf_t * os_t :=
  if truthy (bufHasData buf) then
    let '(data, len, buf1) := bufExtract buf 0 in
    let bytes := from_option blk_bytes [] data in
    let '(sent, o1) := send fd bytes len o in
    let bytesWritten := if sent <? 0 then 0 else sent in
    let '(buf2, o2) :=
      if to_size_t bytesWritten <? len then
        let '(_, b, plan1) :=
          bufAppend buf1 (Some (drop (Z.to_nat bytesWritten) bytes))
            (to_size_t (len - to_size_t bytesWritten)) (alloc_plan o1) in
        (b, set_alloc_plan plan1 o1)
      else (buf1, o1) in
    if bytesWritten =? 0 then (0, buf2, o2) else (1, buf2, o2)
  else (1, buf, o).

(** [socketClose(fd)] *)
Definition socketClose (fd : Z) (o : os_t) : os_t :=
  set_open_fds (open_fds o ∖ {[fd]}) o.

(** ** server.c: the registry *)

(** [_socket_t]; the two one-bit fields are booleans. *)
Record _socket_t := Socket {
  iBuf : buf_t;
  oBuf : buf_t;
  keepAlive : bool;
  isServer : bool
}.

(** [event_t], without the counting sentinel [EVENT_COUNT]. *)
Inductive event_t :=
| EVENT_START
| EVENT_STOP
| EVENT_IDLE
| EVENT_SOCKET_ACCEPT
| EVENT_SOCKET_READ
| EVENT_SOCKET_WRITE
| EVENT_SOCKET_CLOSE.

(** [eventContext_t].  The two buffer pointers are either [NULL] or point
    at the buffers of a socket record, which is named by its descriptor. *)
Record eventContext_t := EventContext {
  event : event_t;
  sFd : Z;
  cFd : Z;
  ctx_iBuf : option Z;
  ctx_oBuf : option Z
}.

(** The file-scope state of [server.c], together with the environment and
    with [dispatched], the record of every call of [_invokeCallback] in
    order (kept for the proofs; the program does not read it).
    - [_callback] is a function pointer: [None] for [NULL], otherwise the
      name of the code it points at;
    - [_sockets] is the array of records; a descriptor without an entry
      holds the all-zero record that [memset] leaves. *)
Record server_t := Server {
  _callback : option nat;
  _sockets : gmap Z _socket_t;
  _socketReadSet : gset Z;
  _socketWriteSet : gset Z;
  _highestSocket : Z;
  os : os_t;
  dispatched : list eventContext_t
}.

(** What the code behind a callback pointer does when it is called with a
    context.  It runs in the process, so it may change anything the process
    can. *)
Class Provider := { callback_code : nat → eventContext_t → server_t → server_t }.

Definition zero_buf : buf_t := Buf None 0 0.

Definition zero_socket : _socket_t := Socket zero_buf zero_buf false false.

(** [_sockets[fd]] *)
Definition sock (s : server_t) (fd : Z) : _socket_t :=
  default zero_socket (_sockets s !! fd).

Definition set_callback (c : option nat) (s : server_t) : server_t :=
  Server c (_sockets s) (_socketReadSet s) (_socketWriteSet s)
         (_highestSocket s) (os s) (dispatched s).

Definition set_sock (fd : Z) (x : _socket_t) (s : server_t) : server_t :=
  Server (_callback s) (<[fd := x]> (_sockets s)) (_socketReadSet s)
         (_socketWriteSet s) (_highestSocket s) (os s) (dispatched s).

Definition set_readSet (r : gset Z) (s : server_t) : server_t :=
  Server (_callback s) (_sockets s) r (_socketWriteSet s)
         (_highestSocket s) (os s) (dispatched s).

Definition set_writeSet (w : gset Z) (s : server_t) : server_t :=
  Server (_callback s) (_sockets s) (_socketReadSet s) w
         (_highestSocket s) (os s) (dispatched s).

Definition set_highest (h : Z) (s : server_t) : server_t :=
  Server (_callback s) (_sockets s) (_socketReadSet s) (_socketWriteSet s)
         h (os s) (dispatched s).

Definition set_os (o : os_t) (s : server_t) : server_t :=
  Server (_callback s) (_sockets s) (_socketReadSet s) (_socketWriteSet s)
         (_highestSocket s) o (dispatched s).

Definition set_dispatched (d : list eventContext_t) (s : server_t) : server_t :=
  Server (_callback s) (_sockets s) (_socketReadSet s) (_socketWriteSet s)
         (_highestSocket s) (os s) d.

(** Writing through [&(_sockets[fd].iBuf)] and [&(_sockets[fd].oBuf)]. *)
Definition store_iBuf (fd : Z) (p : option buf_t) (s : server_t) : server_t :=
  let k := sock s fd in
  set_sock fd (Socket (default (iBuf k) p) (oBuf k) (keepAlive k) (isServer k)) s.

Definition store_oBuf (fd : Z) (p : option buf_t) (s : server_t) : server_t :=
  let k := sock s fd in
  set_sock fd (Socket (iBuf k) (default (oBuf k) p) (keepAlive k) (isServer k)) s.

(** [FD_SET], [FD_CLR], [FD_ISSET] *)
Definition FD_SET (fd : Z) (set : gset Z) : gset Z := {[fd]} ∪ set.
Definition FD_CLR (fd : Z) (set : gset Z) : gset Z := set ∖ {[fd]}.
Definition FD_ISSET (fd : Z) (set : gset Z) : bool := bool_decide (fd ∈ set).

(** [select(nfds, &readSet, &writeSet, NULL, &timeout)] on one set: below
    [nfds] only the ready descriptors stay, from [nfds] on the set is not
    looked at. *)
Definition select_keep (nfds : Z) (ready set : gset Z) : gset Z :=
  filter (λ d, d < nfds → d ∈ ready) set.

Definition select_count (nfds : Z) (ready set : gset Z) : Z :=
  Z.of_nat (length (elements (filter (λ d, d < nfds ∧ d ∈ ready) set))).

(** The return value, the two sets afterwards, whether [errno] is [EINTR],
    and the environment afterwards. *)
Definition select (nfds : Z) (readSet writeSet : gset Z) (o : os_t)
  : Z * gset Z * gset Z * bool * os_t :=
  let outcome :=
    match select_plan o with
    | [] => SelectReady ∅ ∅
    | x :: _ => x
    end in
  let o1 := set_select_plan (tail (select_plan o)) o in
  match outcome with
  | SelectReady r w =>
    (select_count nfds r readSet + select_count nfds w writeSet,
     select_keep nfds r readSet, select_keep nfds w writeSet, false, o1)
  | SelectError eintr => (-1, readSet, writeSet, eintr, o1)
  end.

Section Server.

Context {platform : Platform} {provider : Provider}.

(** [_invokeCallback(event, sFd, cFd, iBuf, oBuf)] *)
Definition _invokeCallback (ev : event_t) (sfd cfd : Z) (ib ob : option Z)
    (s : server_t) : server_t :=
  let context := EventContext ev sfd cfd ib ob in
  let s0 := set_dispatched (dispatched s ++ [context]) s in
  match _callback s with
  | Some f => callback_code f context s0
  | None => s0
  end.

(** [_isValidSocket(fd)] *)
Definition _isValidSocket (fd : Z) : bool :=
  (INVALID_SOCKET <? fd) && (fd <? SOCKET_MAX).

(** [_addSocket(fd)] *)
Definition _addSocket (fd : Z) (s : server_t) : Z * server_t :=
  if _isValidSocket fd then
    let k := sock s fd in
    let s1 :=
      set_sock fd (Socket (default (iBuf k) (bufClear (Some (iBuf k))))
                          (default (oBuf k) (bufClear (Some (oBuf k))))
                          true false) s in
    let s2 := set_readSet (FD_SET fd (_socketReadSet s1)) s1 in
    let s3 := if _highestSocket s2 <? fd then set_highest fd s2 else s2 in
    (1, s3)
  else (0, s).

(** The loop of [_findHighestSocket]: with [n] indices left, the next one
    looked at is [n - 1]. *)
Fixpoint _findHighestSocket_from (n : nat) (readSet : gset Z) : Z :=
  match n with
  | O => INVALID_SOCKET
  | S i =>
    if FD_ISSET (Z.of_nat i) readSet then Z.of_nat i
    else _findHighestSocket_from i readSet
  end.

(** [_findHighestSocket()]: [i] starts at [_highestSocket - 1]. *)
Definition _findHighestSocket (s : server_t) : Z :=
  _findHighestSocket_from (Z.to_nat (_highestSocket s)) (_socketReadSet s).

(** [_removeSocket(fd)] *)
Definition _removeSocket (fd : Z) (s : server_t) : server_t :=
  let s1 :=
    if isServer (sock s fd)
    then _invokeCallback EVENT_SOCKET_CLOSE fd INVALID_SOCKET None None s
    else _invokeCallback EVENT_SOCKET_CLOSE INVALID_SOCKET fd None None s in
  let k := sock s1 fd in
  let s2 :=
    set_sock fd (Socket (default (iBuf k) (bufClear (Some (iBuf k))))
                        (default (oBuf k) (bufClear (Some (oBuf k))))
                        false false) s1 in
  let s3 := set_readSet (FD_CLR fd (_socketReadSet s2)) s2 in
  let s4 := set_writeSet (FD_CLR fd (_socketWriteSet s3)) s3 in
  let s5 :=
    if fd =? _highestSocket s4
    then set_highest (_findHighestSocket s4) s4
    else s4 in
  set_os (socketClose fd (os s5)) s5.

(** [_enableSocketWrite(fd)] *)
Definition _enableSocketWrite (fd : Z) (s : server_t) : server_t :=
  set_writeSet (FD_SET fd (_socketWriteSet s)) s.

(** [_disableSocketWrite(fd)] *)
Definition _disableSocketWrite (fd : Z) (s : server_t) : server_t :=
  set_writeSet (FD_CLR fd (_socketWriteSet s)) s.

(** [_checkClientSocket(cFd)] *)
Definition _checkClientSocket (cfd : Z) (s : server_t) : server_t :=
  if truthy (bufHasData (Some (oBuf (sock s cfd)))) then _enableSocketWrite cfd s
  else if negb (keepAlive (sock s cfd)) then _removeSocket cfd s
  else s.

(** [_handleServerInput(sFd)] *)
Definition _handleServerInput (sfd : Z) (s : server_t) : server_t :=
  let '(cfd, o1) := socketAccept sfd (os s) in
  let s1 := set_os o1 s in
  if 0 <=? cfd then
    let '(added, s2) := _addSocket cfd s1 in
    if truthy added then
      _checkClientSocket cfd
        (_invokeCallback EVENT_SOCKET_ACCEPT sfd cfd (Some cfd) (Some cfd) s2)
    else set_os (socketClose cfd (os s2)) s2
  else _removeSocket sfd s1.

(** [_handleClientInput(cFd)] *)
Definition _handleClientInput (cfd : Z) (s : server_t) : server_t :=
  let '(got, buf1, o1) := socketRead cfd (Some (iBuf (sock s cfd))) (os s) in
  let s1 := set_os o1 (store_iBuf cfd buf1 s) in
  if truthy got then
    _checkClientSocket cfd
      (_invokeCallback EVENT_SOCKET_READ INVALID_SOCKET cfd (Some cfd) (Some cfd) s1)
  else _removeSocket cfd s1.

(** [_handleInput(fd)] *)
Definition _handleInput (fd : Z) (s : server_t) : server_t :=
  if isServer (sock s fd) then _handleServerInput fd s
  else _handleClientInput fd s.

(** [_handleOutput(cFd)] *)
Definition _handleOutput (cfd : Z) (s : server_t) : server_t :=
  let '(ok, buf1, o1) := socketWrite cfd (Some (oBuf (sock s cfd))) (os s) in
  let s1 := set_os o1 (store_oBuf cfd buf1 s) in
  if truthy ok then
    let s2 :=
      _invokeCallback EVENT_SOCKET_WRITE INVALID_SOCKET cfd (Some cfd) (Some cfd) s1 in
    if negb (truthy (bufHasData (Some (oBuf (sock s2 cfd))))) then
      let s3 := _disableSocketWrite cfd s2 in
      if negb (keepAlive (sock s3 cfd)) then _removeSocket cfd s3
      else s3
    else s2
  else _removeSocket cfd s1.

(** [serverPrepare()] *)
Definition serverPrepare (s : server_t) : server_t :=
  Server None ∅ ∅ ∅ INVALID_SOCKET (os s) (dispatched s).

(** [serverStart()] *)
Definition serverStart (s : server_t) : server_t :=
  _invokeCallback EVENT_START INVALID_SOCKET INVALID_SOCKET None None s.

(** The loop of [serverExec]: [for(fd=0;fd<=_highestSocket;++fd)], with
    [_highestSocket] read again at every turn.  [n] bounds the number of
    turns; [None] means the bound was too small. *)
Fixpoint serverExec_loop (n : nat) (fd : Z) (readSet writeSet : gset Z)
    (s : server_t) : option server_t :=
  if fd <=? _highestSocket s then
    match n with
    | O => None
    | S n' =>
      let s1 := if FD_ISSET fd readSet then _handleInput fd s else s in
      let s2 := if FD_ISSET fd writeSet then _handleOutput fd s1 else s1 in
      serverExec_loop n' (fd + 1) readSet writeSet s2
    end
  else Some s.

(** [serverExec()].  While no descriptor reaches [SOCKET_MAX] the loop
    makes at most [SOCKET_MAX] turns. *)
Definition serverExec (s : server_t) : option (Z * server_t) :=
  if _highestSocket s <? 0 then Some (2, s)
  else
    let '(result, readSet, writeSet, eintr, o1) :=
      select (_highestSocket s + 1) (_socketReadSet s) (_socketWriteSet s) (os s) in
    let s1 := set_os o1 s in
    if 0 <? result then
      pair 1 <$> serverExec_loop (Z.to_nat SOCKET_MAX) 0 readSet writeSet s1
    else if result <? 0 then
      if negb eintr then Some (0, s1) else Some (1, s1)
    else
      Some (1, _invokeCallback EVENT_IDLE INVALID_SOCKET INVALID_SOCKET None None s1).

(** [serverSetCallback(callback)] *)
Definition serverSetCallback (c : option nat) (s : server_t) : server_t :=
  set_callback c s.

(** [serverGetCallback()] *)
Definition serverGetCallback (s : server_t) : option nat := _callback s.

(** [serverAddServerSocket(host, port)] *)
Definition serverAddServerSocket (s : server_t) : Z * server_t :=
  let '(fd, o1) := socketOpenServer (os s) in
  let s1 := set_os o1 s in
  let '(added, s2) := _addSocket fd s1 in
  if truthy added then
    let k := sock s2 fd in
    (fd, set_sock fd (Socket (iBuf k) (oBuf k) (keepAlive k) true) s2)
  else if 0 <=? fd then (INVALID_SOCKET, set_os (socketClose fd (os s2)) s2)
  else (INVALID_SOCKET, s2).

(** [serverCloseSocket(fd)] *)
Definition serverCloseSocket (fd : Z) (s : server_t) : server_t :=
  if _isValidSocket fd && negb (isServer (sock s fd)) then
    let k := sock s fd in
    _enableSocketWrite fd
      (set_sock fd (Socket (iBuf k) (oBuf k) false (isServer k)) s)
  else s.

(** The loop of [_removeAllSockets]: [for(fd=0;fd<=_highestSocket;++fd)],
    with [_highestSocket] read again at every turn; [n] bounds the number
    of turns as in [serverExec_loop]. *)
Fixpoint _removeAllSockets_loop (n : nat) (fd : Z) (s : server_t)
  : option server_t :=
  if fd <=? _highestSocket s then
    match n with
    | O => None
    | S n' =>
      _removeAllSockets_loop n' (fd + 1)
        (if FD_ISSET fd (_socketReadSet s) then _removeSocket fd s else s)
    end
  else Some s.

(** [_removeAllSockets()] *)
Definition _removeAllSockets (s : server_t) : option server_t :=
  _removeAllSockets_loop (Z.to_nat SOCKET_MAX) 0 s.

(** [serverStop()] *)
Definition serverStop (s : server_t) : option server_t :=
  _invokeCallback EVENT_STOP INVALID_SOCKET INVALID_SOCKET None None
    <$> _removeAllSockets s.

End Server.

(** ** Vocabulary of the properties *)

(** The largest length for which [_alignBufSize] does not wrap around. *)
Definition SIZE_LIMIT : Z := 2 ^ SIZE_WIDTH - IO_BUF_SIZE.

(** A buffer in a state the buffer functions produce: the length is within
    the capacity, the capacity is that of the block, and there is no block
    iff the capacity is zero. *)
Definition buf_ok (b : buf_t) : Prop :=
  0 ≤ len b ≤ size b ∧ size b ≤ SIZE_LIMIT ∧
  match data b with
  | None => size b = 0
  | Some blk => Z.of_nat (length (blk_bytes blk)) = size b
  end.

(** [bufAppend] called once per chunk, in order: the results of the calls,
    the buffer and the allocator's plan afterwards. *)
Fixpoint bufAppendAll (buf : option buf_t) (chunks : list (list byte))
    (plan : list alloc_outcome) : list Z * option buf_t * list alloc_outcome :=
  match chunks with
  | [] => ([], buf, plan)
  | c :: rest =>
    let '(r, buf1, plan1) := bufAppend buf (Some c) (Z.of_nat (length c)) plan in
    let '(rs, buf2, plan2) := bufAppendAll buf1 rest plan1 in
    (r :: rs, buf2, plan2)
  end.

(** The bytes the kernel has accepted from a descriptor so far. *)
Definition tx_of (o : os_t) (fd : Z) : list byte := default [] (tx_sent o !! fd).

(** [h] is the greatest descriptor of the set, or the sentinel when the
    set is empty. *)
Definition is_highest (readSet : gset Z) (h : Z) : Prop :=
  (readSet = ∅ ∧ h = INVALID_SOCKET) ∨ (h ∈ readSet ∧ ∀ d, d ∈ readSet → d ≤ h).

(** The invariant of the registry: the read-interest set holds descriptors
    of the table only, and [_highestSocket] is its greatest member. *)
Definition registry_inv `{Platform} (s : server_t) : Prop :=
  (∀ d, d ∈ _socketReadSet s → 0 ≤ d < SOCKET_MAX) ∧
  is_highest (_socketReadSet s) (_highestSocket s).

(** Every callback keeps [P]. *)
Definition callbacks_keep `{Provider} (P : server_t → Prop) : Prop :=
  ∀ f context s, P s → P (callback_code f context s).

(** The registry as the input step on client [cfd] hands it to the Read
    callback, that is, with the outcome of [socketRead] stored, and the
    registry as that callback returns it. *)
Definition read_attempted (cfd : Z) (s : server_t) : server_t :=
  let '(_, buf1, o1) := socketRead cfd (Some (iBuf (sock s cfd))) (os s) in
  set_os o1 (store_iBuf cfd buf1 s).

Definition read_delivered `{Provider} (cfd : Z) (s : server_t) : server_t :=
  _invokeCallback EVENT_SOCKET_READ INVALID_SOCKET cfd (Some cfd) (Some cfd)
                  (read_attempted cfd s).

(** The same for the output step and the Write callback. *)
Definition write_attempted (cfd : Z) (s : server_t) : server_t :=
  let '(_, buf1, o1) := socketWrite cfd (Some (oBuf (sock s cfd))) (os s) in
  set_os o1 (store_oBuf cfd buf1 s).

Definition write_delivered `{Provider} (cfd : Z) (s : server_t) : server_t :=
  _invokeCallback EVENT_SOCKET_WRITE INVALID_SOCKET cfd (Some cfd) (Some cfd)
                  (write_attempted cfd s).

(** No callback opens or closes a socket: the read-interest set and
    [_highestSocket] are as the callback found them. *)
Definition callbacks_quiet `{Provider} : Prop :=
  ∀ f context s,
    _socketReadSet (callback_code f context s) = _socketReadSet s ∧
    _highestSocket (callback_code f context s) = _highestSocket s.

(** ** A concrete configuration, to run the model *)

(** A platform with the usual [FD_SETSIZE]. *)
Definition linux : Platform := {| SOCKET_MAX := 1024 |}.

(** The callback of a provider that answers nothing: on a Read event it
    asks for the client to be closed, and it ignores every other event. *)
Definition closing_callback (context : eventContext_t) (s : server_t) : server_t :=
  match event context with
  | EVENT_SOCKET_READ => @serverCloseSocket linux (cFd context) s
  | _ => s
  end.

(** A provider whose only callback, named 0, is [closing_callback]. *)
Definition closing_provider : Provider :=
  {| callback_code := λ f context s,
       match f with
       | O => closing_callback context s
       | _ => s
       end |}.

(** An environment in which nothing is pending. *)
Definition quiet_os : os_t := Os [] ∅ ∅ ∅ ∅ [] [] [] [].

(** The registry after [serverPrepare]. *)
Definition fresh_server : server_t := Server None ∅ ∅ ∅ INVALID_SOCKET quiet_os [].

(** A buffer that holds ["ABCDE"] in a block of [IO_BUF_SIZE] bytes. *)
Definition buf_ABCDE : buf_t :=
  Buf (Some (Block 1 (resize 1024 x00 ["A"; "B"; "C"; "D"; "E"]%byte))) 5 1024.

(** A client record with pending output. *)
Definition client_ABCDE (keep : bool) : _socket_t :=
  Socket zero_buf buf_ABCDE keep false.

(** A registry with the listening socket 3 and the client 5, which has
    ["ABCDE"] to send and write-interest enabled; descriptor 1024 is open
    as well (a file of the provider, say).  [keep] is the client's
    keep-alive flag, [cb] the installed callback. *)
Definition demo_server (keep : bool) (cb : option nat) (o : os_t) : server_t :=
  Server cb
         (<[5 := client_ABCDE keep]> (<[3 := Socket zero_buf zero_buf true true]> ∅))
         {[3; 5]} {[5]} 5 o [].

Definition demo_os : os_t :=
  Os [] {[0; 1; 2; 3; 5; 1024]} ∅ ∅ ∅ [] [] [] [].

(** Variations of the environment: the peer of client 5 has shut down; the
    kernel takes three bytes of the next [send]; the same while the
    allocator is out of memory; [accept] finds no connection pending; the
    kernel holds two bytes for client 5 while the allocator fails once. *)
Definition demo_os_eof : os_t :=
  Os [] {[0; 1; 2; 3; 5; 1024]} ∅ {[5]} ∅ [] [] [] [].

Definition demo_os_partial : os_t := set_tx ∅ [3] demo_os.

Definition demo_os_partial_nomem : os_t :=
  set_alloc_plan [AllocFail] (set_tx ∅ [3] demo_os).

Definition demo_os_accept_race : os_t := set_accept_plan [(-1, true)] demo_os.

Definition demo_os_rx : os_t :=
  set_alloc_plan [AllocFail; AllocAt 9]
    (set_rx_queue {[5 := ["h"; "i"]%byte]} demo_os).

(** The registry of the examples: keep-alive client, [closing_callback]
    installed. *)
Definition demo : server_t := demo_server true (Some 0%nat) demo_os.

(** The same registry once the client has been asked to close. *)
Definition closing_demo (o : os_t) : server_t := demo_server false (Some 0%nat) o.

(** More variations: [accept] returns descriptor 2000, which does not fit
    the table; [accept] fails for good; [accept] returns descriptor 7. *)
Definition demo_os_accept_2000 : os_t := set_accept_plan [(2000, false)] demo_os.

Definition demo_os_accept_error : os_t := set_accept_plan [(-1, false)] demo_os.

Definition demo_os_accept_7 : os_t := set_accept_plan [(7, false)] demo_os.

(** The callback of a provider that answers: on a Read event it takes the
    request out of the input buffer, queues the reply ["ABCDE"] in the
    output buffer and asks for the client to be closed once the reply is
    out; it ignores every other event. *)
Definition answering_callback (context : eventContext_t) (s : server_t) : server_t :=
  match event context with
  | EVENT_SOCKET_READ =>
    let fd := cFd context in
    let '(_, _, ib) := bufExtract (Some (iBuf (sock s fd))) 0 in
    let s1 := store_iBuf fd ib s in
    let '(_, ob, plan) :=
      bufAppend (Some (oBuf (sock s1 fd))) (Some ["A"; "B"; "C"; "D"; "E"]%byte) 5
                (alloc_plan (os s1)) in
    @serverCloseSocket linux fd
      (set_os (set_alloc_plan plan (os s1)) (store_oBuf fd ob s1))
  | _ => s
  end.

(** A provider whose only callback, named 0, is [answering_callback]. *)
Definition answering_provider : Provider :=
  {| callback_code := λ f context s,
       match f with
       | O => answering_callback context s
       | _ => s
       end |}.

(** An environment for a run from the start: [socketOpenServer] yields the
    listening descriptor 3; [select] reports 3 readable, then 5 readable
    three times; [accept] yields client 5, whose peer sends 1030 bytes and
    shuts down; the kernel takes three bytes of the first [send]. *)
Definition boot_os : os_t :=
  Os [] {[0; 1; 2]} {[5 := replicate 1030 "x"%byte]} {[5]} ∅ [3] [(5, false)]
     [SelectReady {[3]} ∅; SelectReady {[5]} ∅; SelectReady {[5]} ∅;
      SelectReady {[5]} ∅] [3].

(** [serverPrepare], [serverSetCallback] and [serverAddServerSocket], as
    [main] calls them. *)
Definition booted : server_t :=
  (@serverAddServerSocket linux
     (serverSetCallback (Some 0%nat) (serverPrepare (set_os boot_os fresh_server)))).2.

(** One call of [serverExec] with [answering_callback] installed. *)
Definition tick (s : server_t) : server_t :=
  from_option snd s (@serverExec linux answering_provider s).

(** After two ticks client 5 has been accepted and its first 1024 bytes
    have been answered: the reply is pending and the client is to be
    closed.  After a third tick the other six bytes have been answered as
    well. *)
Definition answered : server_t := tick (tick booted).

Definition answered_twice : server_t := tick answered.


(** The contexts the reactor hands to the callback. *)
Definition close_client_event (fd : Z) : eventContext_t :=
  EventContext EVENT_SOCKET_CLOSE INVALID_SOCKET fd None None.

Definition close_server_event (fd : Z) : eventContext_t :=
  EventContext EVENT_SOCKET_CLOSE fd INVALID_SOCKET None None.

Definition write_event (fd : Z) : eventContext_t :=
  EventContext EVENT_SOCKET_WRITE INVALID_SOCKET fd (Some fd) (Some fd).

Definition accept_event (sfd cfd : Z) : eventContext_t :=
  EventContext EVENT_SOCKET_ACCEPT sfd cfd (Some cfd) (Some cfd).

Definition idle_event : eventContext_t :=
  EventContext EVENT_IDLE INVALID_SOCKET INVALID_SOCKET None None.

(** * Properties *)

(** ** The buffer *)

Lemma to_size_t_small z : 0 ≤ z < 2 ^ SIZE_WIDTH → to_size_t z = z.
Proof. intros Hz. unfold to_size_t. apply Z.mod_small. exact Hz. Qed.

Lemma alignBufSize_bounds s :
  0 ≤ s ≤ SIZE_LIMIT →
  s ≤ _alignBufSize s ∧ _alignBufSize s ≤ SIZE_LIMIT.
Proof.
  unfold SIZE_LIMIT, _alignBufSize, IO_BUF_SIZE, SIZE_WIDTH. intros Hs.
  pose proof (Z.mod_pos_bound s 1024 ltac:(lia)) as Hm.
  pose proof (Z.div_mod s 1024 ltac:(lia)) as Hd.
  assert (Hq : 2 ^ 64 = 1024 * 2 ^ 54) by reflexivity.
  destruct (0 <? s `mod` 1024) eqn:E.
  - apply Z.ltb_lt in E.
    assert (s `div` 1024 < 2 ^ 54) by nia.
    rewrite to_size_t_small; unfold SIZE_WIDTH; lia.
  - apply Z.ltb_ge in E.
    rewrite to_size_t_small; unfold SIZE_WIDTH; lia.
Qed.

Lemma length_memcpy_at dst off src n :
  0 ≤ off → 0 ≤ n ≤ Z.of_nat (length src) → off + n ≤ Z.of_nat (length dst) →
  length (memcpy_at dst off src n) = length dst.
Proof.
  intros. unfold memcpy_at.
  rewrite !length_app, !length_take, length_drop. lia.
Qed.

Lemma take_memcpy_at dst off src n :
  0 ≤ off → 0 ≤ n ≤ Z.of_nat (length src) → off + n ≤ Z.of_nat (length dst) →
  take (Z.to_nat (off + n)) (memcpy_at dst off src n)
  = take (Z.to_nat off) dst ++ take (Z.to_nat n) src.
Proof.
  intros. unfold memcpy_at.
  rewrite app_assoc.
  rewrite take_app_le by (rewrite length_app, !length_take; lia).
  rewrite take_ge by (rewrite length_app, !length_take; lia). reflexivity.
Qed.

(** A successful append of [n > 0] bytes: the buffer stays well formed and
    holds the old contents followed by the first [n] bytes of the source. *)
Lemma bufAppend_grows b bytes n plan r ob plan' :
  buf_ok b →
  0 < n ≤ Z.of_nat (length bytes) →
  len b + n ≤ SIZE_LIMIT →
  bufAppend (Some b) (Some bytes) n plan = (r, ob, plan') →
  r = 1 →
  ∃ b', ob = Some b' ∧ buf_ok b' ∧ is_Some (data b') ∧
        len b' = len b + n ∧
        contents b' = contents b ++ take (Z.to_nat n) bytes.
Proof.
  intros (Hlen & Hsz & Hdata) Hn Hfit Happ ->.
  unfold bufAppend in Happ.
  rewrite (proj2 (Z.ltb_lt _ _) (proj1 Hn)) in Happ.
  assert (Hlim : SIZE_LIMIT < 2 ^ SIZE_WIDTH) by reflexivity.
  rewrite (to_size_t_small (len b + _)) in Happ by lia.
  pose proof (alignBufSize_bounds (len b + n) ltac:(lia)) as [Hlo Hhi].
  set (newSize := _alignBufSize (len b + n)) in *.
  destruct (size b <? newSize) eqn:Hgrow.
  - unfold _alloc in Happ.
    set (fresh := resize (Z.to_nat newSize) x00 (from_option blk_bytes [] (data b))) in *.
    assert (Hfresh : Z.of_nat (length fresh) = newSize)
      by (subst fresh; rewrite length_resize; lia).
    assert (Hold : take (Z.to_nat (len b)) fresh = contents b).
    { subst fresh. unfold contents, bytes_of. destruct (data b) as [blk|]; simpl.
      - rewrite take_resize_le by lia. by rewrite resize_le by lia.
      - assert (len b = 0) by lia. by replace (Z.to_nat (len b)) with 0%nat by lia. }
    assert (∀ a, ∃ b',
      Some (Buf (Some (Block a (memcpy_at fresh (len b) bytes n))) (len b + n) newSize)
        = Some b' ∧ buf_ok b' ∧ is_Some (data b') ∧
      len b' = len b + n ∧
      contents b' = contents b ++ take (Z.to_nat n) bytes) as Hres.
    { intros a. eexists. split; [reflexivity|].
      split; [|split; [eauto|split; [reflexivity|]]].
      - repeat split; simpl; try lia. rewrite length_memcpy_at; lia.
      - unfold contents at 1, bytes_of; simpl.
        rewrite take_memcpy_at by lia. by rewrite Hold. }
    destruct plan as [|[|a] rest]; simplify_eq; apply Hres.
  - apply Z.ltb_ge in Hgrow. simplify_eq.
    destruct (data b) as [blk|] eqn:Hd; [|lia].
    eexists. split; [reflexivity|].
    split; [|split; [simpl; eauto|split; [reflexivity|]]].
    + repeat split; simpl; try lia. rewrite length_memcpy_at; lia.
    + unfold contents, bytes_of; simpl. rewrite Hd; simpl.
      by rewrite take_memcpy_at by lia.
Qed.

(** Whether an append succeeds is up to the allocator: when the next
    allocation does not fail, neither does the append. *)
Lemma bufAppend_succeeds buf src n plan :
  is_Some buf → head plan ≠ Some AllocFail →
  (bufAppend buf src n plan).1.1 = 1.
Proof.
  intros [b ->] Hplan. unfold bufAppend.
  destruct src as [bytes|]; [|done]. destruct (0 <? n); [|done].
  destruct (size b <? _); [|done].
  unfold _alloc. by destruct plan as [|[|a] rest].
Qed.

Lemma bufAppend_empty_chunk b plan :
  bufAppend (Some b) (Some []) (Z.of_nat (length (@nil byte))) plan = (1, Some b, plan).
Proof. reflexivity. Qed.

Lemma bufAppendAll_contents chunks : ∀ b plan rs ob plan',
  buf_ok b →
  len b + Z.of_nat (length (concat chunks)) ≤ SIZE_LIMIT →
  bufAppendAll (Some b) chunks plan = (rs, ob, plan') →
  Forall (λ r, r = 1) rs →
  ∃ b', ob = Some b' ∧ buf_ok b' ∧
        len b' = len b + Z.of_nat (length (concat chunks)) ∧
        contents b' = contents b ++ concat chunks.
Proof.
  induction chunks as [|c rest IH]; intros b plan rs ob plan' Hok Hfit Hrun Hall.
  - simpl in *. simplify_eq. exists b. rewrite app_nil_r. split_and!; auto; lia.
  - cbn [bufAppendAll concat] in Hrun, Hfit. rewrite length_app in Hfit.
    destruct (bufAppend (Some b) (Some c) (Z.of_nat (length c)) plan)
      as [[r buf1] plan1] eqn:Happ.
    destruct (bufAppendAll buf1 rest plan1) as [[rs' buf2] plan2] eqn:Hrest.
    simplify_eq. apply Forall_cons in Hall as [-> Hall].
    assert (∃ b1, buf1 = Some b1 ∧ buf_ok b1 ∧
                  len b1 = len b + Z.of_nat (length c) ∧
                  contents b1 = contents b ++ c) as (b1 & -> & Hok1 & Hlen1 & Hc1).
    { destruct c as [|x c'].
      - rewrite bufAppend_empty_chunk in Happ. simplify_eq.
        exists b. rewrite app_nil_r. simpl. split_and!; auto; lia.
      - destruct (bufAppend_grows b (x :: c') (Z.of_nat (length (x :: c')))
                    plan 1 buf1 plan1 Hok)
          as (b1 & ? & ? & _ & ? & Hc1); auto; [simpl; lia|lia|].
        rewrite take_ge in Hc1 by lia. by exists b1. }
    destruct (IH b1 plan1 rs' ob plan') as (b' & -> & Hok' & Hlen' & Hc'); auto; [lia|].
    exists b'. simpl. rewrite length_app, Hc', Hc1, <- app_assoc.
    split_and!; auto; lia.
Qed.

Lemma zero_buf_ok : buf_ok zero_buf.
Proof. unfold buf_ok, SIZE_LIMIT; simpl. split_and!; try lia. by vm_compute. Qed.

Lemma zero_buf_ok' b : buf_ok (_resetBuf b).
Proof. exact zero_buf_ok. Qed.

(** C7.  Round trip: after any sequence of [bufAppend] calls on the empty
    buffer that all returned 1, one [bufExtract] returns a pointer to
    exactly the concatenation of the chunks and stores its total length,
    the buffer is reset to no storage, length 0 and capacity 0, and
    [bufHasData] is 0.  (The chunks together fit in a [size_t] with room
    for the alignment, as anything that fits in memory does.) *)
Theorem bufExtract_returns_concatenation chunks plan rs ob plan' lenDest :
  Z.of_nat (length (concat chunks)) ≤ SIZE_LIMIT →
  bufAppendAll (Some zero_buf) chunks plan = (rs, ob, plan') →
  Forall (λ r, r = 1) rs →
  ∃ p,
    bufExtract ob lenDest
      = (p, Z.of_nat (length (concat chunks)), Some (Buf None 0 0)) ∧
    bytes_of p (Z.of_nat (length (concat chunks))) = concat chunks ∧
    bufHasData (Some (Buf None 0 0)) = 0.
Proof.
  intros Hfit Hrun Hall.
  destruct (bufAppendAll_contents chunks zero_buf plan rs ob plan')
    as (b & -> & _ & Hlen & Hc); auto using zero_buf_ok.
  change (len zero_buf) with 0 in Hlen. rewrite Z.add_0_l in Hlen.
  exists (data b). rewrite <- Hlen. split_and!; [reflexivity | exact Hc | reflexivity].
Qed.

Lemma bufExtract_returns_concatenation_witness :
  ∃ p,
    bufExtract
      (bufAppendAll (Some zero_buf) [["A"; "B"]; []; ["C"; "D"; "E"]]%byte
                    [AllocAt 7]).1.2 0
      = (p, 5, Some (Buf None 0 0)) ∧
    bytes_of p 5 = ["A"; "B"; "C"; "D"; "E"]%byte ∧
    bufHasData (Some (Buf None 0 0)) = 0.
Proof.
  apply (bufExtract_returns_concatenation
           [["A"; "B"]; []; ["C"; "D"; "E"]]%byte [AllocAt 7] [1; 1; 1]
           _ [] 0).
  - by vm_compute.
  - by vm_compute.
  - repeat constructor.
Defined.

(** [bufAppend] returns 0 before it has written anything. *)
Lemma bufAppend_zero_unchanged b src n plan ob plan' :
  bufAppend (Some b) src n plan = (0, ob, plan') → ob = Some b.
Proof.
  intros Hfail. unfold bufAppend in Hfail.
  destruct src as [bytes|]; [|simplify_eq].
  destruct (0 <? n); [|simplify_eq].
  destruct (size b <? _); [|simplify_eq].
  by destruct (_alloc _ _ _) as [[newData|] plan1]; simplify_eq.
Qed.

(** The allocator is asked for the aligned capacity only when the buffer is
    too small; when it then returns [NULL], [bufAppend] returns 0 and the
    buffer it leaves is the one it was given. *)
Lemma bufAppend_alloc_fails b bytes n plan plan' :
  0 < n →
  size b < _alignBufSize (to_size_t (len b + n)) →
  _alloc (data b) (_alignBufSize (to_size_t (len b + n))) plan = (None, plan') →
  bufAppend (Some b) (Some bytes) n plan = (0, Some b, plan').
Proof.
  intros Hn Hgrow Halloc. unfold bufAppend.
  rewrite (proj2 (Z.ltb_lt _ _) Hn), (proj2 (Z.ltb_lt _ _) Hgrow).
  cbv zeta. by rewrite Halloc.
Qed.

(** [bufAppend] returns 0 in no other way. *)
Lemma bufAppend_zero_inv b src n plan ob plan' :
  bufAppend (Some b) src n plan = (0, ob, plan') →
  ob = Some b ∧
  ∃ bytes, src = Some bytes ∧ 0 < n ∧
    size b < _alignBufSize (to_size_t (len b + n)) ∧
    _alloc (data b) (_alignBufSize (to_size_t (len b + n))) plan = (None, plan').
Proof.
  intros Hfail. unfold bufAppend in Hfail.
  destruct src as [bytes|]; [|simplify_eq].
  destruct (0 <? n) eqn:Hn; [|simplify_eq]. apply Z.ltb_lt in Hn.
  destruct (size b <? _) eqn:Hgrow; [|simplify_eq]. apply Z.ltb_lt in Hgrow.
  destruct (_alloc _ _ _) as [[newData|] plan1] eqn:Halloc; simplify_eq.
  split; [reflexivity|].
  exists bytes. split_and!; [reflexivity | exact Hn | exact Hgrow | reflexivity].
Qed.

(** The allocator returns [NULL] exactly when its plan says so. *)
Lemma _alloc_fails ptr newSize plan plan' :
  _alloc ptr newSize plan = (None, plan') ↔ plan = AllocFail :: plan'.
Proof.
  unfold _alloc. destruct plan as [|[|a] rest]; split; intros; by simplify_eq.
Qed.

(** An append of [n > 0] bytes succeeds when the buffer has the room, and
    when it has not but the allocator serves the request. *)
Lemma bufAppend_succeeds_if b bytes n plan :
  0 < n →
  (size b < _alignBufSize (to_size_t (len b + n)) → head plan ≠ Some AllocFail) →
  (bufAppend (Some b) (Some bytes) n plan).1.1 = 1.
Proof.
  intros Hn Hplan. unfold bufAppend.
  rewrite (proj2 (Z.ltb_lt _ _) Hn). cbv zeta.
  destruct (Z.ltb_spec (size b) (_alignBufSize (to_size_t (len b + n)))) as [Hgrow|_];
    [|done].
  specialize (Hplan Hgrow). unfold _alloc. by destruct plan as [|[|a] rest].
Qed.

(** C3.  When [bufAppend] is given a non-empty data block for which the
    buffer is too small and the allocator returns [NULL] for the required
    capacity, it returns 0 and the buffer is exactly the one it was given:
    the same storage pointer with the same bytes, the same length and the
    same capacity.  A 0 result arises in no other way and always leaves the
    buffer so.  The caller can therefore retry: as soon as the allocator
    serves the request, the same append on the same buffer returns 1 and
    the buffer holds the old contents followed by the data. *)
Theorem bufAppend_failure_leaves_buffer b bytes n plan plan' :
  0 < n →
  size b < _alignBufSize (to_size_t (len b + n)) →
  _alloc (data b) (_alignBufSize (to_size_t (len b + n))) plan = (None, plan') →
  bufAppend (Some b) (Some bytes) n plan = (0, Some b, plan') ∧
  (∀ src m p ob p',
     bufAppend (Some b) src m p = (0, ob, p') →
     ob = Some b ∧
     ∃ bytes', src = Some bytes' ∧ 0 < m ∧
       size b < _alignBufSize (to_size_t (len b + m)) ∧
       _alloc (data b) (_alignBufSize (to_size_t (len b + m))) p = (None, p')) ∧
  (buf_ok b → n ≤ Z.of_nat (length bytes) → len b + n ≤ SIZE_LIMIT →
   ∀ plan2, head plan2 ≠ Some AllocFail →
     ∃ b' plan2',
       bufAppend (Some b) (Some bytes) n plan2 = (1, Some b', plan2') ∧
       data b' ≠ None ∧ len b' = len b + n ∧
       contents b' = contents b ++ take (Z.to_nat n) bytes).
Proof.
  intros Hn Hgrow Halloc. split_and!.
  - by apply bufAppend_alloc_fails.
  - intros src m p ob p'. apply bufAppend_zero_inv.
  - intros Hok Hlen Hfit plan2 Hplan2.
    pose proof (bufAppend_succeeds (Some b) (Some bytes) n plan2
                  ltac:(eauto) Hplan2) as Hone.
    destruct (bufAppend (Some b) (Some bytes) n plan2) as [[r ob] plan2'] eqn:Happ.
    simpl in Hone. subst r.
    destruct (bufAppend_grows b bytes n plan2 1 ob plan2' Hok ltac:(lia) Hfit Happ eq_refl)
      as (b' & -> & _ & [blk Hblk] & Hlen' & Hc).
    exists b', plan2'. split_and!; [reflexivity | by rewrite Hblk | exact Hlen' | exact Hc].
Qed.

Lemma bufAppend_failure_leaves_buffer_witness :
  let b := Buf (Some (Block 3 (resize 1024 x00 ["h"; "i"]%byte))) 2 1024 in
  let bytes := replicate 2000 "x"%byte in
  bufAppend (Some b) (Some bytes) 2000 [AllocFail; AllocAt 9]
    = (0, Some b, [AllocAt 9]) ∧
  ∃ b' plan2',
    bufAppend (Some b) (Some bytes) 2000 [AllocAt 9] = (1, Some b', plan2') ∧
    data b' ≠ None ∧ len b' = 2002 ∧
    contents b' = ["h"; "i"]%byte ++ bytes.
Proof.
  intros b bytes.
  destruct (bufAppend_failure_leaves_buffer b bytes 2000 [AllocFail; AllocAt 9]
              [AllocAt 9]) as (Hzero & _ & Hretry).
  - lia.
  - by vm_compute.
  - reflexivity.
  - split; [exact Hzero|].
    apply (Hretry ltac:(unfold buf_ok; split_and!; by vm_compute)
                  ltac:(by vm_compute) ltac:(by vm_compute) [AllocAt 9]).
    discriminate.
Defined.

(** C10.  On a buffer that is not [NULL], [bufExtract] returns the data
    pointer, stores the current length through [lenDest] and resets the
    buffer; on the empty buffer it returns [NULL] and still stores 0.  Only
    for a [NULL] buffer is the out-parameter left as it was. *)
Theorem bufExtract_always_stores_length b lenDest :
  bufExtract (Some b) lenDest = (data b, len b, Some (Buf None 0 0)) ∧
  bufExtract (Some (Buf None 0 0)) lenDest = (None, 0, Some (Buf None 0 0)) ∧
  bufExtract None lenDest = (None, lenDest, None).
Proof. done. Qed.

(** ** The registry invariant *)

Section Registry.

Context {platform : Platform} {provider : Provider}.

(** The invariant reads the read-interest set and [_highestSocket] only. *)
Lemma registry_inv_frame s s' :
  _socketReadSet s' = _socketReadSet s →
  _highestSocket s' = _highestSocket s →
  registry_inv s → registry_inv s'.
Proof. unfold registry_inv. by intros -> ->. Qed.

Lemma _invokeCallback_inv ev sfd cfd ib ob s :
  callbacks_keep registry_inv →
  registry_inv s → registry_inv (_invokeCallback ev sfd cfd ib ob s).
Proof.
  intros Hkeep Hs. unfold _invokeCallback.
  destruct (_callback s); [apply Hkeep|]; by eapply registry_inv_frame.
Qed.

(** The downward scan returns the greatest member below its start. *)
Lemma _findHighestSocket_from_spec n (readSet : gset Z) :
  (∀ d, d ∈ readSet → 0 ≤ d < Z.of_nat n) →
  is_highest readSet (_findHighestSocket_from n readSet).
Proof.
  induction n as [|i IH]; intros Hdom; cbn [_findHighestSocket_from].
  - left. split; [|done]. apply set_eq. intros d. split; [|set_solver].
    intros Hd. apply Hdom in Hd. lia.
  - unfold FD_ISSET. case_bool_decide as Hi.
    + right. split; [done|]. intros d Hd. apply Hdom in Hd. lia.
    + apply IH. intros d Hd. pose proof (Hdom d Hd).
      assert (d ≠ Z.of_nat i) by (intros ->; done). lia.
Qed.

Lemma is_highest_remove (readSet : gset Z) h fd :
  (∀ d, d ∈ readSet → 0 ≤ d) →
  is_highest readSet h →
  is_highest (FD_CLR fd readSet)
    (if fd =? h then _findHighestSocket_from (Z.to_nat h) (FD_CLR fd readSet) else h).
Proof.
  intros Hdom Hh. unfold FD_CLR. destruct (Z.eqb_spec fd h) as [->|Hne].
  - apply _findHighestSocket_from_spec. intros d Hd.
    apply elem_of_difference in Hd as [Hd Hne].
    assert (d ≠ h) by set_solver. pose proof (Hdom d Hd).
    destruct Hh as [[-> _]|[_ Hmax]]; [set_solver|].
    pose proof (Hmax d Hd). lia.
  - destruct Hh as [[-> ->]|[Hin Hmax]].
    + left. split; [set_solver|done].
    + right. split; [set_solver|]. intros d Hd. apply Hmax. set_solver.
Qed.

Lemma _removeSocket_inv fd s :
  callbacks_keep registry_inv →
  registry_inv s → registry_inv (_removeSocket fd s).
Proof.
  intros Hkeep Hs. unfold _removeSocket.
  set (s1 := if isServer (sock s fd) then _ else _).
  assert (Hs1 : registry_inv s1) by (subst s1; destruct (isServer _); by apply _invokeCallback_inv).
  clearbody s1. destruct Hs1 as [Hdom Hh]. cbn.
  unfold _findHighestSocket. cbn.
  pose proof (is_highest_remove _ _ fd (λ d Hd, proj1 (Hdom d Hd)) Hh) as Hrem.
  destruct (fd =? _highestSocket s1); (split; [|exact Hrem]); cbn;
    intros d Hd; apply Hdom; unfold FD_CLR in Hd; set_solver.
Qed.

Lemma _addSocket_inv fd s :
  registry_inv s → registry_inv (_addSocket fd s).2.
Proof.
  intros [Hdom Hh]. unfold _addSocket, _isValidSocket, INVALID_SOCKET.
  destruct (_ && _) eqn:Hvalid; [|done].
  apply andb_true_iff in Hvalid as [Hlo Hhi%Z.ltb_lt]. apply Z.ltb_lt in Hlo.
  cbn. unfold FD_SET.
  assert (Hdom' : ∀ d, d ∈ ({[fd]} ∪ _socketReadSet s : gset Z) → 0 ≤ d < SOCKET_MAX).
  { intros d [->%elem_of_singleton|Hd]%elem_of_union; [lia|by apply Hdom]. }
  destruct (Z.ltb_spec (_highestSocket s) fd) as [Hlt|Hge]; (split; [exact Hdom'|]); cbn.
  - right. split; [set_solver|].
    intros d [->%elem_of_singleton|Hd]%elem_of_union; [lia|].
    destruct Hh as [[Hempty _]|[_ Hmax]]; [set_solver|]. pose proof (Hmax d Hd). lia.
  - destruct Hh as [[_ Hnone]|[Hin Hmax]]; [unfold INVALID_SOCKET in *; lia|].
    right. split; [set_solver|].
    intros d [->%elem_of_singleton|Hd]%elem_of_union; [lia|by apply Hmax].
Qed.

Lemma serverPrepare_inv s : registry_inv (serverPrepare s).
Proof. split; cbn; [set_solver|by left]. Qed.

Lemma _checkClientSocket_inv cfd s :
  callbacks_keep registry_inv →
  registry_inv s → registry_inv (_checkClientSocket cfd s).
Proof.
  intros Hkeep Hs. unfold _checkClientSocket.
  destruct (truthy _); [by eapply registry_inv_frame|].
  destruct (negb _); [by apply _removeSocket_inv|done].
Qed.

Lemma _handleServerInput_inv sfd s :
  callbacks_keep registry_inv →
  registry_inv s → registry_inv (_handleServerInput sfd s).
Proof.
  intros Hkeep Hs. unfold _handleServerInput.
  destruct (socketAccept sfd (os s)) as [cfd o1].
  assert (Hs1 : registry_inv (set_os o1 s)) by by eapply registry_inv_frame.
  destruct (0 <=? cfd); [|by apply _removeSocket_inv].
  pose proof (_addSocket_inv cfd _ Hs1) as Hs2.
  destruct (_addSocket cfd (set_os o1 s)) as [added s2]. cbn in Hs2.
  destruct (truthy added); [|by eapply registry_inv_frame].
  by apply _checkClientSocket_inv, _invokeCallback_inv.
Qed.

Lemma _handleClientInput_inv cfd s :
  callbacks_keep registry_inv →
  registry_inv s → registry_inv (_handleClientInput cfd s).
Proof.
  intros Hkeep Hs. unfold _handleClientInput.
  destruct (socketRead _ _ _) as [[got buf1] o1].
  assert (Hs1 : registry_inv (set_os o1 (store_iBuf cfd buf1 s)))
    by by eapply registry_inv_frame.
  destruct (truthy got); [|by apply _removeSocket_inv].
  by apply _checkClientSocket_inv, _invokeCallback_inv.
Qed.

Lemma _handleInput_inv fd s :
  callbacks_keep registry_inv →
  registry_inv s → registry_inv (_handleInput fd s).
Proof.
  intros Hkeep Hs. unfold _handleInput.
  destruct (isServer _); [by apply _handleServerInput_inv|by apply _handleClientInput_inv].
Qed.

Lemma _handleOutput_inv cfd s :
  callbacks_keep registry_inv →
  registry_inv s → registry_inv (_handleOutput cfd s).
Proof.
  intros Hkeep Hs. unfold _handleOutput.
  destruct (socketWrite _ _ _) as [[ok buf1] o1].
  assert (Hs1 : registry_inv (set_os o1 (store_oBuf cfd buf1 s)))
    by by eapply registry_inv_frame.
  destruct (truthy ok); [|by apply _removeSocket_inv].
  set (s2 := _invokeCallback _ _ _ _ _ _).
  assert (Hs2 : registry_inv s2) by by apply _invokeCallback_inv.
  clearbody s2.
  destruct (negb (truthy _)); [|done].
  assert (Hs3 : registry_inv (_disableSocketWrite cfd s2)) by by eapply registry_inv_frame.
  destruct (negb (keepAlive _)); [by apply _removeSocket_inv|done].
Qed.

(** Under the invariant the loop of [serverExec] ends within its bound. *)
Lemma serverExec_loop_inv n : ∀ fd readSet writeSet s,
  callbacks_keep registry_inv →
  registry_inv s →
  0 ≤ fd → SOCKET_MAX - fd ≤ Z.of_nat n →
  ∃ s', serverExec_loop n fd readSet writeSet s = Some s' ∧ registry_inv s'.
Proof.
  induction n as [|n IH]; intros fd readSet writeSet s Hkeep Hs Hfd Hn;
    cbn [serverExec_loop]; destruct (Z.leb_spec fd (_highestSocket s)) as [Hle|Hgt];
    try (by exists s).
  - destruct Hs as [Hdom [[_ Hnone]|[Hin _]]]; [unfold INVALID_SOCKET in *; lia|].
    apply Hdom in Hin. lia.
  - apply IH; [done| |lia|lia].
    destruct (FD_ISSET fd writeSet); [apply _handleOutput_inv; [done|]|];
      (destruct (FD_ISSET fd readSet); [by apply _handleInput_inv|done]).
Qed.

Lemma serverExec_inv s :
  callbacks_keep registry_inv →
  registry_inv s →
  ∃ r s', serverExec s = Some (r, s') ∧ registry_inv s'.
Proof.
  intros Hkeep Hs. unfold serverExec.
  destruct (_highestSocket s <? 0); [by exists 2, s|].
  destruct (select _ _ _ _) as [[[[result readSet] writeSet] eintr] o1].
  assert (Hs1 : registry_inv (set_os o1 s)) by by eapply registry_inv_frame.
  destruct (0 <? result).
  - destruct (serverExec_loop_inv (Z.to_nat SOCKET_MAX) 0 readSet writeSet _ Hkeep Hs1)
      as (s' & -> & Hs'); [lia|lia|]. by exists 1, s'.
  - destruct (result <? 0); [destruct (negb eintr); by eexists _, _|].
    eexists _, _. split; [done|]. by apply _invokeCallback_inv.
Qed.

End Registry.

(** ** Reading and writing a socket *)

Lemma bufHasData_true b :
  bufHasData (Some b) = 1 ↔ is_Some (data b) ∧ 0 < len b.
Proof.
  unfold bufHasData. destruct (data b) as [blk|].
  - destruct (Z.ltb_spec 0 (len b)); split; intros Hx.
    + eauto.
    + reflexivity.
    + discriminate.
    + lia.
  - split; [discriminate|]. intros [[? [=]] _].
Qed.

Lemma bufHasData_contents b :
  buf_ok b → (bufHasData (Some b) = 1 ↔ contents b ≠ []).
Proof.
  intros (Hlen & _ & Hblk).
  rewrite bufHasData_true. unfold contents, bytes_of.
  destruct (data b) as [blk|]; cbn.
  - split.
    + intros [_ Hpos] Hnil. apply (f_equal length) in Hnil.
      rewrite length_take in Hnil. cbn in Hnil. lia.
    + intros Hne. split; [eauto|].
      destruct (Z.ltb_spec 0 (len b)); [done|].
      exfalso. apply Hne. by replace (Z.to_nat (len b)) with 0%nat by lia.
  - split; [by intros [[? [=]] _]|]. intros Hne. by rewrite take_nil in Hne.
Qed.

Lemma length_contents b : buf_ok b → Z.of_nat (length (contents b)) = len b.
Proof.
  intros (Hlen & _ & Hblk). unfold contents, bytes_of.
  destruct (data b) as [blk|]; cbn; rewrite length_take; cbn; lia.
Qed.

Lemma bufHasData_cases buf : bufHasData buf = 0 ∨ bufHasData buf = 1.
Proof.
  destruct buf as [b|]; [|by left]. unfold bufHasData.
  destruct (data b); [|by left]. destruct (0 <? len b); [by right|by left].
Qed.

Lemma bufAppend_cases buf src n plan :
  (bufAppend buf src n plan).1.1 = 0 ∨ (bufAppend buf src n plan).1.1 = 1.
Proof.
  unfold bufAppend. destruct buf as [b|]; [|by left].
  destruct src; [|by right]. destruct (0 <? n); [|by right].
  destruct (size b <? _); [|by right].
  destruct (_alloc _ _ _) as [[?|] ?]; [by right|by left].
Qed.

(** A partial write: the kernel takes [w] bytes with [0 < w < len], and
    the allocator serves the request for the rest.  The buffer then holds
    exactly the bytes that were not written, in their order. *)
Lemma socketWrite_partial fd b o w rest :
  buf_ok b → bufHasData (Some b) = 1 →
  send_plan o = w :: rest → 0 < w < len b →
  head (alloc_plan o) ≠ Some AllocFail →
  ∃ b' o',
    socketWrite fd (Some b) o = (1, Some b', o') ∧
    contents b' = drop (Z.to_nat w) (contents b) ∧
    len b' = len b - w ∧
    bufHasData (Some b') = 1 ∧
    tx_sent o' !! fd
      = Some (default [] (tx_sent o !! fd) ++ take (Z.to_nat w) (contents b)).
Proof.
  intros Hok Hdata Hplan Hw Halloc.
  pose proof Hok as (Hlen & Hsz & Hblk).
  apply bufHasData_true in Hdata as Hd. destruct Hd as [[blk Hblk'] Hpos].
  rewrite Hblk' in Hblk.
  assert (Hlim : SIZE_LIMIT < 2 ^ SIZE_WIDTH) by reflexivity.
  unfold socketWrite. rewrite Hdata. cbn [truthy Z.eqb negb bufExtract].
  rewrite Hblk'. cbn [from_option]. unfold send. rewrite Hplan.
  rewrite (proj2 (Z.ltb_ge _ _)) by lia.
  replace (Z.min w (len b)) with w by lia.
  rewrite (proj2 (Z.ltb_ge w 0)) by lia.
  rewrite (to_size_t_small w) by lia.
  rewrite (proj2 (Z.ltb_lt w (len b))) by lia.
  rewrite (to_size_t_small (len b - w)) by lia.
  cbn [alloc_plan set_tx].
  destruct (bufAppend _ _ _ _) as [[r ob] plan1] eqn:Happ.
  pose proof (bufAppend_succeeds (Some (_resetBuf b))
                (Some (drop (Z.to_nat w) (blk_bytes blk))) (len b - w)
                (alloc_plan o) ltac:(eauto) Halloc) as Hr.
  rewrite Happ in Hr. cbn in Hr. subst r.
  destruct (bufAppend_grows (_resetBuf b) (drop (Z.to_nat w) (blk_bytes blk))
              (len b - w) (alloc_plan o) 1 ob plan1)
    as (b' & -> & Hok' & Hsome & Hlen' & Hc');
    [apply zero_buf_ok' | | | exact Happ | reflexivity | ].
  - rewrite length_drop. lia.
  - cbn. lia.
  - rewrite (proj2 (Z.eqb_neq w 0)) by lia.
    eexists b', _. split; [reflexivity|]. cbn in Hlen', Hc'.
    split_and!.
    + rewrite Hc'. unfold contents, bytes_of. rewrite Hblk'. cbn.
      rewrite take_drop_commute.
      replace (Z.to_nat w + Z.to_nat (len b - w))%nat with (Z.to_nat (len b)) by lia.
      reflexivity.
    + lia.
    + apply bufHasData_true. split; [done|lia].
    + cbn. rewrite lookup_insert_eq. unfold contents, bytes_of. rewrite Hblk'. cbn.
      do 2 f_equal. rewrite take_take. f_equal. lia.
Qed.

(** A complete write: the kernel takes everything, the buffer is left
    reset and nothing is asked of the allocator. *)
Lemma socketWrite_full fd b o :
  buf_ok b → bufHasData (Some b) = 1 →
  match send_plan o with
  | [] => True
  | w :: _ => len b ≤ w
  end →
  socketWrite fd (Some b) o
  = (1, Some (Buf None 0 0),
     set_tx (<[fd := default [] (tx_sent o !! fd) ++ contents b]> (tx_sent o))
            (tail (send_plan o)) o).
Proof.
  intros (Hlen & Hsz & Hblk) Hdata Hplan.
  apply bufHasData_true in Hdata as Hd. destruct Hd as [[blk Hblk'] Hpos].
  assert (Hlim : SIZE_LIMIT < 2 ^ SIZE_WIDTH) by reflexivity.
  unfold socketWrite. rewrite Hdata. cbn [truthy Z.eqb negb bufExtract].
  rewrite Hblk'. cbn [from_option]. unfold send, contents, bytes_of.
  rewrite Hblk'. cbn [from_option].
  destruct (send_plan o) as [|w rest]; cbn [tail].
  - rewrite (proj2 (Z.ltb_ge (len b) 0)) by lia.
    rewrite (to_size_t_small (len b)) by lia.
    rewrite Z.ltb_irrefl. by rewrite (proj2 (Z.eqb_neq (len b) 0)) by lia.
  - rewrite (proj2 (Z.ltb_ge w 0)) by lia.
    replace (Z.min w (len b)) with (len b) by lia.
    rewrite (proj2 (Z.ltb_ge (len b) 0)) by lia.
    rewrite (to_size_t_small (len b)) by lia.
    rewrite Z.ltb_irrefl. by rewrite (proj2 (Z.eqb_neq (len b) 0)) by lia.
Qed.

(** A write of no byte at all (the kernel takes nothing, or [send] fails)
    is reported as a failure. *)
Lemma socketWrite_nothing fd b o w rest :
  bufHasData (Some b) = 1 →
  send_plan o = w :: rest → w ≤ 0 →
  (socketWrite fd (Some b) o).1.1 = 0.
Proof.
  intros Hdata Hplan Hw.
  apply bufHasData_true in Hdata as Hd. destruct Hd as [_ Hpos].
  unfold socketWrite. rewrite Hdata. cbn [truthy Z.eqb negb bufExtract].
  destruct (send _ _ _ _) as [sent o1] eqn:Hsend.
  assert ((if sent <? 0 then 0 else sent) = 0) as ->.
  { unfold send in Hsend. rewrite Hplan in Hsend.
    destruct (Z.ltb_spec w 0); simplify_eq; [done|].
    replace (Z.min w (len b)) with 0 by lia. done. }
  match goal with |- context [let '(_, _) := ?x in _] => destruct x end.
  reflexivity.
Qed.

(** With bytes pending, the peek returns the first [IO_BUF_SIZE] of them
    and their number, which is positive. *)
Lemma recv_peek_pending fd o :
  rx_of o fd ≠ [] →
  recv_peek fd IO_BUF_SIZE o
  = (Z.min IO_BUF_SIZE (Z.of_nat (length (rx_of o fd))),
     take (Z.to_nat IO_BUF_SIZE) (rx_of o fd)) ∧
  0 < Z.min IO_BUF_SIZE (Z.of_nat (length (rx_of o fd))) ≤ IO_BUF_SIZE ∧
  Z.of_nat (length (take (Z.to_nat IO_BUF_SIZE) (rx_of o fd)))
  = Z.min IO_BUF_SIZE (Z.of_nat (length (rx_of o fd))).
Proof.
  intros Hq. unfold recv_peek.
  destruct (rx_of o fd) as [|x q] eqn:E; [done|].
  split; [reflexivity|]. rewrite length_take. unfold IO_BUF_SIZE. cbn [length]. lia.
Qed.

(** A read whose append goes through: the buffer gains exactly the peeked
    bytes and exactly these leave the kernel's queue. *)
Lemma socketRead_stores fd b o :
  let q := rx_of o fd in
  let n := Z.min IO_BUF_SIZE (Z.of_nat (length q)) in
  let peeked := take (Z.to_nat IO_BUF_SIZE) q in
  buf_ok b → len b + IO_BUF_SIZE ≤ SIZE_LIMIT → q ≠ [] →
  (size b < _alignBufSize (len b + n) → head (alloc_plan o) ≠ Some AllocFail) →
  ∃ b' o',
    socketRead fd (Some b) o = (1, Some b', o') ∧
    contents b' = contents b ++ peeked ∧
    rx_of o' fd = drop (Z.to_nat n) q ∧
    q = peeked ++ rx_of o' fd.
Proof.
  intros q n peeked Hok Hfit Hq Hplan.
  destruct (recv_peek_pending fd o Hq) as (Hpeek & Hn & Hlen).
  fold q n peeked in Hpeek, Hn, Hlen.
  pose proof Hok as (Hb & _ & _).
  assert (Hlim : SIZE_LIMIT < 2 ^ SIZE_WIDTH) by reflexivity.
  assert (Hsmall : to_size_t (len b + n) = len b + n)
    by (apply to_size_t_small; lia).
  pose proof (bufAppend_succeeds_if b peeked n (alloc_plan o) ltac:(lia)
                ltac:(by rewrite Hsmall)) as Hone.
  destruct (bufAppend (Some b) (Some peeked) n (alloc_plan o))
    as [[r ob] plan1] eqn:Happ.
  cbn in Hone. subst r.
  destruct (bufAppend_grows b peeked n (alloc_plan o) 1 ob plan1 Hok
              ltac:(lia) ltac:(lia) Happ eq_refl)
    as (b' & -> & _ & _ & _ & Hc).
  exists b', (recv_consume fd n (set_alloc_plan plan1 o)).
  assert (Hrx : rx_of (recv_consume fd n (set_alloc_plan plan1 o)) fd
                = drop (Z.to_nat n) q).
  { unfold recv_consume, rx_of. cbn. by rewrite lookup_insert_eq. }
  assert (Htake : take (Z.to_nat n) peeked = peeked)
    by (apply take_ge; lia).
  split_and!.
  - unfold socketRead. rewrite Hpeek, (proj2 (Z.ltb_lt 0 n)) by lia.
    by rewrite Happ.
  - by rewrite Hc, Htake.
  - exact Hrx.
  - rewrite Hrx. subst peeked n.
    destruct (Z.min_spec IO_BUF_SIZE (Z.of_nat (length q))) as [[_ ->]|[Hle ->]].
    + by rewrite take_drop.
    + rewrite Nat2Z.id, drop_all, app_nil_r. symmetry. apply take_ge. lia.
Qed.

(** A read whose append cannot get the memory: nothing is stored and
    nothing is consumed. *)
Lemma socketRead_alloc_fails fd b o :
  let q := rx_of o fd in
  let n := Z.min IO_BUF_SIZE (Z.of_nat (length q)) in
  buf_ok b → len b + IO_BUF_SIZE ≤ SIZE_LIMIT → q ≠ [] →
  size b < _alignBufSize (len b + n) →
  head (alloc_plan o) = Some AllocFail →
  socketRead fd (Some b) o = (0, Some b, set_alloc_plan (tail (alloc_plan o)) o).
Proof.
  intros q n Hok Hfit Hq Hgrow Hplan.
  destruct (recv_peek_pending fd o Hq) as (Hpeek & Hn & _).
  fold q n in Hpeek, Hn.
  pose proof Hok as (Hb & _ & _).
  assert (Hlim : SIZE_LIMIT < 2 ^ SIZE_WIDTH) by reflexivity.
  assert (Hsmall : to_size_t (len b + n) = len b + n)
    by (apply to_size_t_small; lia).
  unfold socketRead. rewrite Hpeek, (proj2 (Z.ltb_lt 0 n)) by lia.
  rewrite (bufAppend_alloc_fails b _ n (alloc_plan o) (tail (alloc_plan o)));
    [reflexivity | lia | by rewrite Hsmall |].
  apply _alloc_fails. by destruct (alloc_plan o) as [|[|a] rest]; simplify_eq.
Qed.

(** C1.  [socketRead] on a client descriptor with pending bytes peeks at
    them (at most [IO_BUF_SIZE]) without consuming.  When the append goes
    through (the buffer has the room, or the allocator serves the request)
    it returns 1, the input buffer holds its old contents followed by
    exactly the peeked bytes, and exactly these bytes have left the kernel's
    queue.  When the append fails, which is when the buffer must grow and
    the allocator returns [NULL], it returns 0 with the buffer it was given,
    the kernel's queue is unchanged, a later peek sees the same bytes, and a
    later read, once the allocator serves the request, returns 1 and stores
    and consumes these same bytes. *)
Theorem socketRead_peek_then_consume fd b o :
  let q := rx_of o fd in
  let n := Z.min IO_BUF_SIZE (Z.of_nat (length q)) in
  let peeked := take (Z.to_nat IO_BUF_SIZE) q in
  let o0 := set_alloc_plan (tail (alloc_plan o)) o in
  buf_ok b → len b + IO_BUF_SIZE ≤ SIZE_LIMIT → q ≠ [] →
  recv_peek fd IO_BUF_SIZE o = (n, peeked) ∧
  ((size b < _alignBufSize (len b + n) → head (alloc_plan o) ≠ Some AllocFail) →
     ∃ b' o',
       socketRead fd (Some b) o = (1, Some b', o') ∧
       contents b' = contents b ++ peeked ∧
       rx_of o' fd = drop (Z.to_nat n) q ∧
       q = peeked ++ rx_of o' fd) ∧
  (size b < _alignBufSize (len b + n) → head (alloc_plan o) = Some AllocFail →
     socketRead fd (Some b) o = (0, Some b, o0) ∧
     rx_queue o0 = rx_queue o ∧
     recv_peek fd IO_BUF_SIZE o0 = (n, peeked) ∧
     ∀ plan2, head plan2 ≠ Some AllocFail →
       ∃ b' o',
         socketRead fd (Some b) (set_alloc_plan plan2 o0) = (1, Some b', o') ∧
         contents b' = contents b ++ peeked ∧
         rx_of o' fd = drop (Z.to_nat n) q).
Proof.
  intros q n peeked o0 Hok Hfit Hq.
  destruct (recv_peek_pending fd o Hq) as (Hpeek & _ & _).
  split_and!; [exact Hpeek | |].
  - intros Hplan. by apply socketRead_stores.
  - intros Hgrow Hplan.
    split_and!; [by apply socketRead_alloc_fails | reflexivity | exact Hpeek |].
    intros plan2 Hplan2.
    destruct (socketRead_stores fd b (set_alloc_plan plan2 o0)
                Hok Hfit Hq (λ _, Hplan2))
      as (b' & o' & Hread & Hc & Hrx & _).
    by exists b', o'.
Qed.

(** ** The reactor *)

Section Reactor.

Context {platform : Platform} {provider : Provider}.

Lemma is_highest_unique (readSet : gset Z) h h' :
  is_highest readSet h → is_highest readSet h' → h = h'.
Proof.
  intros [[-> ->]|[Hin Hmax]] [[He ->]|[Hin' Hmax']]; try set_solver.
  pose proof (Hmax h' Hin'). pose proof (Hmax' h Hin). lia.
Qed.

Lemma _addSocket_valid fd s :
  0 ≤ fd < SOCKET_MAX →
  _callback (_addSocket fd s).2 = _callback s ∧
  _socketReadSet (_addSocket fd s).2 = {[fd]} ∪ _socketReadSet s.
Proof.
  intros Hfd. unfold _addSocket, _isValidSocket, INVALID_SOCKET.
  rewrite (proj2 (Z.ltb_lt (-1) fd)), (proj2 (Z.ltb_lt fd SOCKET_MAX)) by lia.
  cbn. by destruct (_ <? fd).
Qed.

Lemma _removeSocket_quiet fd s :
  _callback s = None →
  _callback (_removeSocket fd s) = None ∧
  _socketReadSet (_removeSocket fd s) = _socketReadSet s ∖ {[fd]}.
Proof.
  intros Hcb. unfold _removeSocket, _invokeCallback. rewrite Hcb.
  destruct (isServer _); cbn; by destruct (fd =? _).
Qed.

(** C8.  With [_highestSocket] at the sentinel, [serverExec] returns 2
    and the whole state is as before: the registry, the environment (so
    [select] was not called) and the record of dispatched events. *)
Theorem serverExec_no_connections s :
  _highestSocket s = INVALID_SOCKET →
  serverExec s = Some (2, s).
Proof. intros Hnone. unfold serverExec. by rewrite Hnone. Qed.

(** C9.  [serverCloseSocket] on a listening socket, or on a descriptor
    outside the table, changes nothing at all.  On a descriptor of the
    table whose record is a client's (a registered client in particular)
    it clears [keepAlive] and adds the descriptor to the write-interest
    set; the buffers and the role of that record, every other record, the
    read-interest set, [_highestSocket], the callback, the environment and
    the dispatched events are as before. *)
Theorem serverCloseSocket_frame fd s :
  (isServer (sock s fd) = true ∨ fd ≤ INVALID_SOCKET ∨ SOCKET_MAX ≤ fd →
     serverCloseSocket fd s = s) ∧
  (INVALID_SOCKET < fd < SOCKET_MAX → isServer (sock s fd) = false →
     let s' := serverCloseSocket fd s in
     keepAlive (sock s' fd) = false ∧
     _socketWriteSet s' = {[fd]} ∪ _socketWriteSet s ∧
     iBuf (sock s' fd) = iBuf (sock s fd) ∧
     oBuf (sock s' fd) = oBuf (sock s fd) ∧
     isServer (sock s' fd) = false ∧
     (∀ d, d ≠ fd → _sockets s' !! d = _sockets s !! d) ∧
     _socketReadSet s' = _socketReadSet s ∧
     _highestSocket s' = _highestSocket s ∧
     _callback s' = _callback s ∧
     os s' = os s ∧
     dispatched s' = dispatched s).
Proof.
  unfold serverCloseSocket, _isValidSocket. split.
  - intros [->|Hout]; [by rewrite andb_false_r|].
    destruct Hout; [rewrite (proj2 (Z.ltb_ge _ _)) by lia; done|].
    rewrite (proj2 (Z.ltb_ge fd SOCKET_MAX)) by lia. by rewrite andb_false_r.
  - intros [Hlo Hhi] Hclient. rewrite Hclient.
    rewrite (proj2 (Z.ltb_lt _ _) Hlo), (proj2 (Z.ltb_lt _ _) Hhi).
    cbn. unfold sock; cbn. rewrite lookup_insert_eq. cbn.
    split_and!; try done. intros d Hd. by rewrite lookup_insert_ne.
Qed.

(** C4.  The registry invariant ([_highestSocket] is the greatest
    descriptor of the read-interest set, or [INVALID_SOCKET] when the set
    is empty, and the set holds descriptors of the table only) holds after
    [serverPrepare] and is kept by [_addSocket], by [_removeSocket] and by
    a whole tick of [serverExec], which ends; the callbacks, which run
    inside these operations, are assumed to keep it too.  In particular,
    with the descriptors 3, 7 and 9 registered, removing 9 makes
    [_highestSocket] 7 and removing all three makes it [INVALID_SOCKET]. *)
Theorem highest_socket_is_maximum fd s :
  callbacks_keep registry_inv →
  registry_inv s →
  9 < SOCKET_MAX →
  registry_inv (serverPrepare s) ∧
  registry_inv (_addSocket fd s).2 ∧
  registry_inv (_removeSocket fd s) ∧
  (∃ r s', serverExec s = Some (r, s') ∧ registry_inv s') ∧
  let s379 := (_addSocket 9 (_addSocket 7 (_addSocket 3 (serverPrepare s)).2).2).2 in
  _socketReadSet s379 = {[3; 7; 9]} ∧
  _highestSocket s379 = 9 ∧
  _highestSocket (_removeSocket 9 s379) = 7 ∧
  _highestSocket (_removeSocket 3 (_removeSocket 7 (_removeSocket 9 s379)))
    = INVALID_SOCKET.
Proof.
  intros Hkeep Hs Hmax.
  split_and!; auto using serverPrepare_inv, _addSocket_inv, _removeSocket_inv, serverExec_inv.
  intros s379.
  set (s0 := serverPrepare s) in *.
  assert (Hinv0 : registry_inv s0) by apply serverPrepare_inv.
  destruct (_addSocket_valid 3 s0) as [Hc3 Hr3]; [lia|].
  destruct (_addSocket_valid 7 (_addSocket 3 s0).2) as [Hc7 Hr7]; [lia|].
  destruct (_addSocket_valid 9 (_addSocket 7 (_addSocket 3 s0).2).2) as [Hc9 Hr9]; [lia|].
  fold s379 in Hc9, Hr9.
  assert (Hinv : registry_inv s379) by (subst s379; auto using _addSocket_inv).
  assert (Hcb : _callback s379 = None) by (rewrite Hc9, Hc7, Hc3; done).
  assert (Hread : _socketReadSet s379 = {[3; 7; 9]}).
  { rewrite Hr9, Hr7, Hr3. subst s0. cbn. set_solver. }
  destruct (_removeSocket_quiet 9 s379 Hcb) as [Hcb9 Hrm9].
  destruct (_removeSocket_quiet 7 _ Hcb9) as [Hcb7 Hrm7].
  destruct (_removeSocket_quiet 3 _ Hcb7) as [_ Hrm3].
  rewrite Hrm7, Hrm9, Hread in Hrm3. rewrite Hread in Hrm9.
  pose proof (_removeSocket_inv 9 _ Hkeep Hinv) as Hinv9.
  pose proof (_removeSocket_inv 3 _ Hkeep (_removeSocket_inv 7 _ Hkeep Hinv9)) as Hinv3.
  split_and!; [done|..].
  - apply (is_highest_unique (_socketReadSet s379)); [apply Hinv|].
    rewrite Hread. right. split; [set_solver|]. intros d Hd. set_unfold in Hd. lia.
  - eapply is_highest_unique; [apply Hinv9|].
    rewrite Hrm9. right. split; [set_solver|]. intros d Hd. set_unfold in Hd. lia.
  - eapply is_highest_unique; [apply Hinv3|].
    rewrite Hrm3. left. split; [|done]. apply set_eq. intros d. split; intros Hd; set_unfold in Hd; lia.
Qed.

(** *** A client that is being closed *)

Lemma sock_set_sock fd x s : sock (set_sock fd x s) fd = x.
Proof. unfold sock. cbn. by rewrite lookup_insert_eq. Qed.

Lemma sock_set_sock_ne fd d x s : d ≠ fd → sock (set_sock fd x s) d = sock s d.
Proof. intros Hd. unfold sock. cbn. by rewrite lookup_insert_ne. Qed.

Lemma sock_store_iBuf fd p o s :
  oBuf (sock (set_os o (store_iBuf fd p s)) fd) = oBuf (sock s fd) ∧
  keepAlive (sock (set_os o (store_iBuf fd p s)) fd) = keepAlive (sock s fd).
Proof.
  change (sock (set_os o (store_iBuf fd p s)) fd) with (sock (store_iBuf fd p s) fd).
  unfold store_iBuf. by rewrite sock_set_sock.
Qed.

Lemma sock_store_oBuf fd b o s :
  sock (set_os o (store_oBuf fd (Some b) s)) fd
  = Socket (iBuf (sock s fd)) b (keepAlive (sock s fd)) (isServer (sock s fd)).
Proof.
  change (sock (set_os o (store_oBuf fd (Some b) s)) fd)
    with (sock (store_oBuf fd (Some b) s) fd).
  unfold store_oBuf. by rewrite sock_set_sock.
Qed.

(** [_removeSocket] is the point of destruction: whatever the callback
    did, the descriptor ends up in neither set and closed. *)
Lemma _removeSocket_unregisters fd s :
  (fd ∉ _socketReadSet (_removeSocket fd s)) ∧
  (fd ∉ _socketWriteSet (_removeSocket fd s)) ∧
  fd ∉ open_fds (os (_removeSocket fd s)).
Proof.
  unfold _removeSocket.
  set (s1 := if isServer (sock s fd) then _ else _). clearbody s1.
  cbn. destruct (fd =? _highestSocket s1); cbn; unfold FD_CLR; set_solver.
Qed.

(** A descriptor that is not in the read-interest set is never reported
    readable by [select]. *)
Lemma select_keep_subseteq nfds ready (set : gset Z) fd :
  fd ∉ set → FD_ISSET fd (select_keep nfds ready set) = false.
Proof.
  intros Hfd. unfold FD_ISSET, select_keep. apply bool_decide_eq_false.
  intros [_ Hin]%elem_of_filter. done.
Qed.

(** The two steps, in terms of what the callback is handed and what it
    returns. *)
Lemma _handleClientInput_steps cfd s :
  _handleClientInput cfd s
  = if truthy (socketRead cfd (Some (iBuf (sock s cfd))) (os s)).1.1
    then _checkClientSocket cfd (read_delivered cfd s)
    else _removeSocket cfd (read_attempted cfd s).
Proof.
  unfold _handleClientInput, read_delivered, read_attempted.
  by destruct (socketRead _ _ _) as [[got buf1] o1].
Qed.

Lemma _handleOutput_steps cfd s :
  _handleOutput cfd s
  = if truthy (socketWrite cfd (Some (oBuf (sock s cfd))) (os s)).1.1
    then
      if negb (truthy (bufHasData (Some (oBuf (sock (write_delivered cfd s) cfd)))))
      then
        if negb (keepAlive (sock (write_delivered cfd s) cfd))
        then _removeSocket cfd (_disableSocketWrite cfd (write_delivered cfd s))
        else _disableSocketWrite cfd (write_delivered cfd s)
      else write_delivered cfd s
    else _removeSocket cfd (write_attempted cfd s).
Proof.
  unfold _handleOutput, write_delivered, write_attempted.
  by destruct (socketWrite _ _ _) as [[ok buf1] o1].
Qed.

(** An input step does not touch the output side of the record. *)
Lemma read_attempted_output cfd s :
  oBuf (sock (read_attempted cfd s) cfd) = oBuf (sock s cfd) ∧
  keepAlive (sock (read_attempted cfd s) cfd) = keepAlive (sock s cfd).
Proof.
  unfold read_attempted. destruct (socketRead _ _ _) as [[got buf1] o1].
  apply sock_store_iBuf.
Qed.

Lemma _handleInput_keeps_pending cfd s :
  isServer (sock s cfd) = false →
  (socketRead cfd (Some (iBuf (sock s cfd))) (os s)).1.1 = 1 →
  bufHasData (Some (oBuf (sock (read_delivered cfd s) cfd))) = 1 →
  _handleInput cfd s = _enableSocketWrite cfd (read_delivered cfd s).
Proof.
  intros Hclient Hread Hpending.
  unfold _handleInput. rewrite Hclient, _handleClientInput_steps, Hread.
  cbn [truthy Z.eqb negb]. unfold _checkClientSocket. by rewrite Hpending.
Qed.

Lemma _handleInput_destroys cfd s :
  isServer (sock s cfd) = false →
  (socketRead cfd (Some (iBuf (sock s cfd))) (os s)).1.1 = 0 →
  (cfd ∉ _socketReadSet (_handleInput cfd s)) ∧
  cfd ∉ open_fds (os (_handleInput cfd s)).
Proof.
  intros Hclient Hread.
  unfold _handleInput. rewrite Hclient, _handleClientInput_steps, Hread.
  cbn [truthy Z.eqb negb].
  destruct (_removeSocket_unregisters cfd (read_attempted cfd s)) as (? & _ & ?).
  by split.
Qed.

Lemma _handleOutput_partial cfd s w rest :
  buf_ok (oBuf (sock s cfd)) →
  bufHasData (Some (oBuf (sock s cfd))) = 1 →
  send_plan (os s) = w :: rest → 0 < w < len (oBuf (sock s cfd)) →
  head (alloc_plan (os s)) ≠ Some AllocFail →
  contents (oBuf (sock (write_attempted cfd s) cfd))
    = drop (Z.to_nat w) (contents (oBuf (sock s cfd))) ∧
  bufHasData (Some (oBuf (sock (write_attempted cfd s) cfd))) = 1 ∧
  keepAlive (sock (write_attempted cfd s) cfd) = keepAlive (sock s cfd) ∧
  tx_of (os (write_attempted cfd s)) cfd
    = tx_of (os s) cfd ++ take (Z.to_nat w) (contents (oBuf (sock s cfd))) ∧
  (bufHasData (Some (oBuf (sock (write_delivered cfd s) cfd))) = 1 →
   _handleOutput cfd s = write_delivered cfd s).
Proof.
  intros Hok Hpending Hplan Hw Halloc.
  destruct (socketWrite_partial cfd _ (os s) w rest Hok Hpending Hplan Hw Halloc)
    as (b' & o' & Hwrite & Hc & _ & Hdata & Htx).
  rewrite _handleOutput_steps. unfold write_delivered, write_attempted.
  rewrite Hwrite. cbn [truthy Z.eqb negb fst snd].
  rewrite sock_store_oBuf. cbn [oBuf keepAlive].
  split_and!; [exact Hc | exact Hdata | reflexivity | |].
  - unfold tx_of. cbn. by rewrite Htx.
  - by intros ->.
Qed.

Lemma _handleOutput_drains cfd s :
  keepAlive (sock s cfd) = false →
  buf_ok (oBuf (sock s cfd)) →
  bufHasData (Some (oBuf (sock s cfd))) = 1 →
  match send_plan (os s) with
  | [] => True
  | w :: _ => len (oBuf (sock s cfd)) ≤ w
  end →
  oBuf (sock (write_attempted cfd s) cfd) = zero_buf ∧
  keepAlive (sock (write_attempted cfd s) cfd) = false ∧
  tx_of (os (write_attempted cfd s)) cfd
    = tx_of (os s) cfd ++ contents (oBuf (sock s cfd)) ∧
  (bufHasData (Some (oBuf (sock (write_delivered cfd s) cfd))) = 0 →
   keepAlive (sock (write_delivered cfd s) cfd) = false →
   (cfd ∉ _socketReadSet (_handleOutput cfd s)) ∧
   (cfd ∉ _socketWriteSet (_handleOutput cfd s)) ∧
   cfd ∉ open_fds (os (_handleOutput cfd s))).
Proof.
  intros Hclosing Hok Hpending Hplan.
  pose proof (socketWrite_full cfd _ (os s) Hok Hpending Hplan) as Hwrite.
  rewrite _handleOutput_steps. unfold write_delivered, write_attempted.
  rewrite Hwrite. cbn [truthy Z.eqb negb fst snd].
  rewrite sock_store_oBuf, Hclosing. cbn [oBuf keepAlive].
  split_and!; [reflexivity | reflexivity | |].
  - unfold tx_of. cbn. by rewrite lookup_insert_eq.
  - intros -> Hk. cbn [truthy Z.eqb negb].
    rewrite Hk. cbn [negb]. apply _removeSocket_unregisters.
Qed.

Lemma _handleOutput_destroys cfd s w rest :
  bufHasData (Some (oBuf (sock s cfd))) = 1 →
  send_plan (os s) = w :: rest → w ≤ 0 →
  (cfd ∉ _socketReadSet (_handleOutput cfd s)) ∧
  cfd ∉ open_fds (os (_handleOutput cfd s)).
Proof.
  intros Hpending Hplan Hw.
  rewrite _handleOutput_steps.
  rewrite (socketWrite_nothing cfd _ (os s) w rest Hpending Hplan Hw).
  cbn [truthy Z.eqb negb].
  destruct (_removeSocket_unregisters cfd (write_attempted cfd s)) as (? & _ & ?).
  by split.
Qed.

(** C5, as the code has it.  Take a client whose [keepAlive] is false and
    whose output buffer holds data.  The callbacks are any code; what
    counts is the record as the callback of the step returns it, which is
    where the code looks.
    - An input step that reads data hands the Read callback the record
      with its output side untouched; if the output buffer holds data when
      the callback returns, the step only enables write-interest on what
      the callback returned: the client is registered if the callback left
      it so.
    - An output step in which the kernel takes some but not all of the
      output (and the allocator serves the request for the rest) hands the
      Write callback the unwritten rest; if the output buffer holds data
      when the callback returns, the step ends there, with the registry as
      the callback returned it.
    - An output step in which the kernel takes all of the output hands the
      Write callback an empty output buffer; if it is empty and
      [keepAlive] is false when the callback returns, the client is
      destroyed in that step: it is in neither interest set, its
      descriptor is closed, and no later [select] can report it readable.
    - An input step that reads nothing (end of file, an error, a failed
      append) destroys the client although output is pending, and so does
      an output step in which the kernel takes nothing. *)
Theorem closing_client_lifecycle cfd s :
  isServer (sock s cfd) = false →
  keepAlive (sock s cfd) = false →
  buf_ok (oBuf (sock s cfd)) →
  bufHasData (Some (oBuf (sock s cfd))) = 1 →
  ((socketRead cfd (Some (iBuf (sock s cfd))) (os s)).1.1 = 1 →
     oBuf (sock (read_attempted cfd s) cfd) = oBuf (sock s cfd) ∧
     keepAlive (sock (read_attempted cfd s) cfd) = false ∧
     (bufHasData (Some (oBuf (sock (read_delivered cfd s) cfd))) = 1 →
        _handleInput cfd s = _enableSocketWrite cfd (read_delivered cfd s) ∧
        (cfd ∈ _socketReadSet (read_delivered cfd s) →
         cfd ∈ _socketReadSet (_handleInput cfd s)) ∧
        cfd ∈ _socketWriteSet (_handleInput cfd s))) ∧
  (∀ w rest,
     send_plan (os s) = w :: rest → 0 < w < len (oBuf (sock s cfd)) →
     head (alloc_plan (os s)) ≠ Some AllocFail →
     contents (oBuf (sock (write_attempted cfd s) cfd))
       = drop (Z.to_nat w) (contents (oBuf (sock s cfd))) ∧
     bufHasData (Some (oBuf (sock (write_attempted cfd s) cfd))) = 1 ∧
     keepAlive (sock (write_attempted cfd s) cfd) = false ∧
     tx_of (os (write_attempted cfd s)) cfd
       = tx_of (os s) cfd ++ take (Z.to_nat w) (contents (oBuf (sock s cfd))) ∧
     (bufHasData (Some (oBuf (sock (write_delivered cfd s) cfd))) = 1 →
        _handleOutput cfd s = write_delivered cfd s)) ∧
  (match send_plan (os s) with
   | [] => True
   | w :: _ => len (oBuf (sock s cfd)) ≤ w
   end →
     oBuf (sock (write_attempted cfd s) cfd) = zero_buf ∧
     keepAlive (sock (write_attempted cfd s) cfd) = false ∧
     tx_of (os (write_attempted cfd s)) cfd
       = tx_of (os s) cfd ++ contents (oBuf (sock s cfd)) ∧
     (bufHasData (Some (oBuf (sock (write_delivered cfd s) cfd))) = 0 →
      keepAlive (sock (write_delivered cfd s) cfd) = false →
        (cfd ∉ _socketReadSet (_handleOutput cfd s)) ∧
        (cfd ∉ _socketWriteSet (_handleOutput cfd s)) ∧
        (cfd ∉ open_fds (os (_handleOutput cfd s))) ∧
        ∀ nfds ready,
          FD_ISSET cfd
            (select_keep nfds ready (_socketReadSet (_handleOutput cfd s)))
          = false)) ∧
  ((socketRead cfd (Some (iBuf (sock s cfd))) (os s)).1.1 = 0 →
     (cfd ∉ _socketReadSet (_handleInput cfd s)) ∧
     cfd ∉ open_fds (os (_handleInput cfd s))) ∧
  (∀ w rest,
     send_plan (os s) = w :: rest → w ≤ 0 →
     (cfd ∉ _socketReadSet (_handleOutput cfd s)) ∧
     cfd ∉ open_fds (os (_handleOutput cfd s))).
Proof.
  intros Hclient Hclosing Hok Hpending. split_and!.
  - intros Hread. destruct (read_attempted_output cfd s) as [Ho Hk].
    rewrite Hclosing in Hk. split_and!; [exact Ho | exact Hk |].
    intros Hstill.
    pose proof (_handleInput_keeps_pending cfd s Hclient Hread Hstill) as Heq.
    split_and!; [exact Heq | |]; rewrite Heq;
      unfold _enableSocketWrite, FD_SET; cbn; [done | set_solver].
  - intros w rest Hplan Hw Halloc.
    destruct (_handleOutput_partial cfd s w rest Hok Hpending Hplan Hw Halloc)
      as (Hc & Hd & Hk & Htx & Hstep).
    rewrite Hclosing in Hk. by split_and!.
  - intros Hplan.
    destruct (_handleOutput_drains cfd s Hclosing Hok Hpending Hplan)
      as (Ho & Hk & Htx & Hgone).
    split_and!; [exact Ho | exact Hk | exact Htx |].
    intros Hempty Hflag. destruct (Hgone Hempty Hflag) as (Hr & Hw & Hc).
    split_and!; try done. intros nfds ready. by apply select_keep_subseteq.
  - by apply _handleInput_destroys.
  - intros w rest. by apply _handleOutput_destroys.
Qed.

(** *** What [serverCloseSocket] leaves alone, for callbacks that call it *)

Lemma serverCloseSocket_inv fd s :
  registry_inv s → registry_inv (serverCloseSocket fd s).
Proof.
  intros Hs. unfold serverCloseSocket.
  destruct (_ && _); [|done]. by eapply registry_inv_frame.
Qed.

(** The accept race, step by step: [socketAccept] returns [SOCKET_MAX],
    which [_addSocket] refuses and which is then closed like a descriptor
    that did not fit the table. *)
Lemma _handleServerInput_accept_race sfd s r rest :
  0 ≤ SOCKET_MAX →
  accept_plan (os s) = (r, true) :: rest → r < 0 →
  _handleServerInput sfd s
  = set_os (socketClose SOCKET_MAX (set_accept_plan rest (os s))) s.
Proof.
  intros Hmax Hplan Hr.
  unfold _handleServerInput, socketAccept, accept. rewrite Hplan.
  rewrite (proj2 (Z.leb_gt 0 r)) by lia.
  rewrite (proj2 (Z.leb_le 0 SOCKET_MAX)) by lia.
  unfold _addSocket, _isValidSocket.
  rewrite Z.ltb_irrefl, andb_false_r. cbn [truthy Z.eqb negb].
  by destruct s.
Qed.

End Reactor.

(** ** The theorems at work on the concrete configuration *)

Lemma buf_ABCDE_ok : buf_ok buf_ABCDE.
Proof. unfold buf_ok. split_and!; by vm_compute. Qed.

Lemma closing_provider_keeps_inv :
  @callbacks_keep closing_provider (@registry_inv linux).
Proof.
  intros f context s Hs. destruct f as [|f]; [|exact Hs].
  cbn. unfold closing_callback.
  destruct (event context); try exact Hs. by apply serverCloseSocket_inv.
Qed.

Lemma demo_server_inv keep cb o : @registry_inv linux (demo_server keep cb o).
Proof.
  split; cbn.
  - intros d Hd. set_unfold. lia.
  - right. set_unfold. split; [tauto|lia].
Qed.

Lemma socketRead_peek_then_consume_witness :
  (socketRead 5 (Some zero_buf) demo_os_rx
   = (0, Some zero_buf, set_alloc_plan [AllocAt 9] demo_os_rx) ∧
   recv_peek 5 IO_BUF_SIZE (set_alloc_plan [AllocAt 9] demo_os_rx)
   = (2, ["h"; "i"]%byte) ∧
   ∃ b' o',
     socketRead 5 (Some zero_buf) (set_alloc_plan [AllocAt 9] demo_os_rx)
     = (1, Some b', o') ∧
     contents b' = ["h"; "i"]%byte ∧
     rx_of o' 5 = []) ∧
  ∃ b' o',
    socketRead 5 (Some buf_ABCDE) demo_os_rx = (1, Some b', o') ∧
    contents b' = ["A"; "B"; "C"; "D"; "E"; "h"; "i"]%byte ∧
    rx_of o' 5 = [].
Proof.
  assert (Hfit : ∀ b, len b ≤ 5 → len b + IO_BUF_SIZE ≤ SIZE_LIMIT).
  { intros b Hb. unfold IO_BUF_SIZE, SIZE_LIMIT, SIZE_WIDTH, IO_BUF_SIZE. lia. }
  split.
  - destruct (socketRead_peek_then_consume 5 zero_buf demo_os_rx zero_buf_ok
                (Hfit zero_buf ltac:(by vm_compute)) ltac:(by vm_compute))
      as (_ & _ & Hfail).
    destruct (Hfail ltac:(by vm_compute) eq_refl) as (Hret & _ & Hpeek & Hretry).
    split_and!; [exact Hret | exact Hpeek |].
    apply (Hretry [AllocAt 9]). discriminate.
  - destruct (socketRead_peek_then_consume 5 buf_ABCDE demo_os_rx buf_ABCDE_ok
                (Hfit buf_ABCDE ltac:(by vm_compute)) ltac:(by vm_compute))
      as (_ & Hstore & _).
    destruct Hstore as (b' & o' & Hread & Hc & Hrx & _).
    { intros Hgrow. exfalso. revert Hgrow. by vm_compute. }
    exists b', o'. split_and!; [exact Hread | exact Hc | exact Hrx].
Defined.

Lemma serverExec_no_connections_witness :
  @serverExec linux closing_provider fresh_server = Some (2, fresh_server).
Proof.
  apply (@serverExec_no_connections linux closing_provider fresh_server).
  reflexivity.
Defined.

Lemma serverCloseSocket_frame_witness :
  @serverCloseSocket linux 3 demo
  = demo_server true (Some 0%nat) demo_os ∧
  @serverCloseSocket linux 1024 demo
  = demo_server true (Some 0%nat) demo_os ∧
  keepAlive (sock (@serverCloseSocket linux 5 demo) 5)
  = false ∧
  oBuf (sock (@serverCloseSocket linux 5 demo) 5)
  = buf_ABCDE.
Proof.
  pose proof (@serverCloseSocket_frame linux 3 demo)
    as [Hserver _].
  pose proof (@serverCloseSocket_frame linux 1024 demo)
    as [Hrange _].
  pose proof (@serverCloseSocket_frame linux 5 demo)
    as [_ Hclient].
  split_and!.
  - apply Hserver. left. by vm_compute.
  - apply Hrange. right. right. by vm_compute.
  - apply Hclient; by vm_compute.
  - etrans; [apply Hclient; by vm_compute|]. by vm_compute.
Defined.

Lemma highest_socket_is_maximum_witness :
  @registry_inv linux (@serverPrepare demo) ∧
  @registry_inv linux (@_addSocket linux 7 demo).2 ∧
  @registry_inv linux (@_removeSocket closing_provider 5 demo) ∧
  (∃ r s', @serverExec linux closing_provider demo = Some (r, s')
           ∧ @registry_inv linux s') ∧
  _highestSocket
    (@_removeSocket closing_provider 9
       (@_addSocket linux 9
          (@_addSocket linux 7 (@_addSocket linux 3 (serverPrepare demo)).2).2).2)
  = 7.
Proof.
  destruct (@highest_socket_is_maximum linux closing_provider 7 demo)
    as (Hprepare & Hadd & _ & Htick & _ & _ & Hseven & _).
  - apply closing_provider_keeps_inv.
  - apply demo_server_inv.
  - by vm_compute.
  - destruct (@highest_socket_is_maximum linux closing_provider 5 demo)
      as (_ & _ & Hremove & _).
    + apply closing_provider_keeps_inv.
    + apply demo_server_inv.
    + by vm_compute.
    + by split_and!.
Defined.

(** The run from the start: after two ticks client 5 is registered with
    [keepAlive] false and the reply pending; six bytes of its request are
    still with the kernel. *)
Lemma answered_state :
  _socketReadSet answered = {[3; 5]} ∧
  _socketWriteSet answered = {[5]} ∧
  sock answered 5
  = Socket zero_buf
           (Buf (Some (Block 1 (resize 1024 x00 ["A"; "B"; "C"; "D"; "E"]%byte))) 5 1024)
           false false ∧
  rx_of (os answered) 5 = replicate 6 "x"%byte ∧
  send_plan (os answered) = [3] ∧
  alloc_plan (os answered) = [].
Proof. split_and!; by vm_compute. Qed.

(** C5, as the claim has it, fails on this run.  After the third tick the
    client has [keepAlive] false, ten bytes of replies pending, of which
    the kernel has taken none, and is registered.  The fourth tick finds
    the end of the client's input and destroys the client: it is
    registered no more, its descriptor is closed, and the replies are
    gone without a byte of them sent. *)
Lemma closing_client_destroyed_with_pending_output :
  keepAlive (sock answered_twice 5) = false ∧
  contents (oBuf (sock answered_twice 5))
  = ["A"; "B"; "C"; "D"; "E"; "A"; "B"; "C"; "D"; "E"]%byte ∧
  FD_ISSET 5 (_socketReadSet answered_twice) = true ∧
  (socketRead 5 (Some (iBuf (sock answered_twice 5))) (os answered_twice)).1.1 = 0 ∧
  fst <$> @serverExec linux answering_provider answered_twice = Some 1 ∧
  tick answered_twice = @_handleInput linux answering_provider 5
                          (set_os (set_select_plan [] (os answered_twice))
                                  answered_twice) ∧
  FD_ISSET 5 (_socketReadSet (tick answered_twice)) = false ∧
  FD_ISSET 5 (open_fds (os (tick answered_twice))) = false ∧
  sock (tick answered_twice) 5 = zero_socket ∧
  tx_of (os (tick answered_twice)) 5 = [] ∧
  ¬ (5 ∈ _socketReadSet (@_handleInput linux answering_provider 5 answered_twice)).
Proof.
  split_and!; by vm_compute.
Qed.

Lemma closing_client_lifecycle_witness :
  (5 ∈ _socketReadSet (@_handleInput linux answering_provider 5 answered)) ∧
  (5 ∈ _socketWriteSet (@_handleInput linux answering_provider 5 answered)) ∧
  (5 ∈ _socketReadSet (@_handleOutput answering_provider 5 answered)) ∧
  contents (oBuf (sock (@_handleOutput answering_provider 5 answered) 5))
  = ["D"; "E"]%byte ∧
  tx_of (os (@_handleOutput answering_provider 5 answered)) 5
  = ["A"; "B"; "C"]%byte ∧
  (5 ∉ _socketReadSet
         (@_handleOutput answering_provider 5
            (@_handleOutput answering_provider 5 answered))) ∧
  (5 ∉ open_fds
         (os (@_handleOutput answering_provider 5
                (@_handleOutput answering_provider 5 answered)))) ∧
  5 ∉ _socketReadSet (@_handleInput linux answering_provider 5 answered_twice).
Proof.
  destruct answered_state as (Hreg & _ & Hrec & _ & Hsend & Halloc).
  assert (Hok : ∀ s, sock s 5 = sock answered 5 → buf_ok (oBuf (sock s 5))).
  { intros s ->. rewrite Hrec. unfold buf_ok. split_and!; by vm_compute. }
  destruct (@closing_client_lifecycle linux answering_provider 5 answered)
    as (Hread & Hpartial & _).
  { by rewrite Hrec. }
  { by rewrite Hrec. }
  { by apply Hok. }
  { by rewrite Hrec. }
  destruct (Hread ltac:(by vm_compute)) as (_ & _ & Hin).
  destruct (Hin ltac:(by vm_compute)) as (_ & Hin_r & Hin_w).
  destruct (Hpartial 3 [] Hsend) as (_ & _ & _ & _ & Hstep).
  { rewrite Hrec. cbn. lia. }
  { by rewrite Halloc. }
  specialize (Hstep ltac:(by vm_compute)).
  set (rest := @_handleOutput answering_provider 5 answered) in *.
  destruct (@closing_client_lifecycle linux answering_provider 5 rest)
    as (_ & _ & Hdrain & _).
  { by vm_compute. }
  { by vm_compute. }
  { unfold buf_ok. split_and!; by vm_compute. }
  { by vm_compute. }
  destruct (Hdrain ltac:(by vm_compute)) as (_ & _ & _ & Hgone).
  destruct (Hgone ltac:(by vm_compute) ltac:(by vm_compute)) as (Hgone_r & _ & Hgone_c & _).
  destruct (@closing_client_lifecycle linux answering_provider 5 answered_twice)
    as (_ & _ & _ & Heof & _).
  { by vm_compute. }
  { by vm_compute. }
  { unfold buf_ok. split_and!; by vm_compute. }
  { by vm_compute. }
  destruct (Heof ltac:(by vm_compute)) as [Heof_r _].
  split_and!.
  - apply Hin_r. by vm_compute.
  - exact Hin_w.
  - subst rest. rewrite Hstep. by vm_compute.
  - subst rest. rewrite Hstep. by vm_compute.
  - subst rest. rewrite Hstep. by vm_compute.
  - exact Hgone_r.
  - exact Hgone_c.
  - exact Heof_r.
Defined.

(** C2 on the failing input: client 5 holds ["ABCDE"], the kernel takes
    ["ABC"], and the allocator returns [NULL] when the rest is put back.
    [socketWrite] still reports success, but the output buffer is left
    empty (["DE"] is lost) and the output step clears the write-interest.
    With the allocator's help the same step leaves ["DE"] and the
    write-interest in place. *)
Theorem partial_write_loses_rest_when_append_fails :
  contents (oBuf (sock (demo_server true None demo_os_partial_nomem) 5))
  = ["A"; "B"; "C"; "D"; "E"]%byte ∧
  (socketWrite 5 (Some (oBuf (sock (demo_server true None demo_os_partial_nomem) 5)))
               demo_os_partial_nomem).1.1 = 1 ∧
  tx_sent (os (@_handleOutput closing_provider 5
                 (demo_server true None demo_os_partial_nomem))) !! 5
  = Some ["A"; "B"; "C"]%byte ∧
  contents (oBuf (sock (@_handleOutput closing_provider 5
                          (demo_server true None demo_os_partial_nomem)) 5)) = [] ∧
  FD_ISSET 5 (_socketWriteSet (@_handleOutput closing_provider 5
                                 (demo_server true None demo_os_partial_nomem))) = false ∧
  FD_ISSET 5 (_socketReadSet (@_handleOutput closing_provider 5
                                (demo_server true None demo_os_partial_nomem))) = true ∧
  contents (oBuf (sock (@_handleOutput closing_provider 5
                          (demo_server true None demo_os_partial)) 5))
  = ["D"; "E"]%byte ∧
  FD_ISSET 5 (_socketWriteSet (@_handleOutput closing_provider 5
                                 (demo_server true None demo_os_partial))) = true.
Proof. split_and!; by vm_compute. Qed.

(** C6 on the failing input: the listening socket 3 is ready, [accept]
    reports that no connection is pending, and descriptor 1024
    ([SOCKET_MAX]) is open in the process.  The registry and the record of
    dispatched events are as before, but descriptor 1024 has been closed. *)
Theorem accept_race_closes_descriptor_SOCKET_MAX :
  FD_ISSET 1024 (open_fds (os (demo_server true None demo_os_accept_race))) = true ∧
  @socketAccept linux 3 demo_os_accept_race = (1024, demo_os) ∧
  dispatched (@_handleInput linux closing_provider 3
                (demo_server true None demo_os_accept_race)) = [] ∧
  _sockets (@_handleInput linux closing_provider 3
              (demo_server true None demo_os_accept_race))
  = _sockets (demo_server true None demo_os_accept_race) ∧
  _socketReadSet (@_handleInput linux closing_provider 3
                    (demo_server true None demo_os_accept_race)) = {[3; 5]} ∧
  _highestSocket (@_handleInput linux closing_provider 3
                    (demo_server true None demo_os_accept_race)) = 5 ∧
  FD_ISSET 1024 (open_fds (os (@_handleInput linux closing_provider 3
                                 (demo_server true None demo_os_accept_race)))) = false.
Proof. split_and!; by vm_compute. Qed.

(** * Further properties of the code *)

(** ** buffer.c *)

(** X1.  [_alignBufSize] returns the least multiple of [IO_BUF_SIZE] that is
    not below its argument, as long as that multiple fits a [size_t]; for
    the last [IO_BUF_SIZE - 1] values of [size_t] the sum wraps around and
    the result is 0. *)
Theorem alignBufSize_least_multiple s :
  (0 ≤ s ≤ SIZE_LIMIT →
     _alignBufSize s mod IO_BUF_SIZE = 0 ∧
     s ≤ _alignBufSize s < s + IO_BUF_SIZE) ∧
  (SIZE_LIMIT < s < 2 ^ SIZE_WIDTH → _alignBufSize s = 0).
Proof.
  unfold SIZE_LIMIT, _alignBufSize, IO_BUF_SIZE, to_size_t, SIZE_WIDTH.
  pose proof (Z.mod_pos_bound s 1024 ltac:(lia)) as Hm.
  pose proof (Z.div_mod s 1024 ltac:(lia)) as Hd.
  assert (Hq : 2 ^ 64 = 1024 * 2 ^ 54) by reflexivity.
  split; intros Hs.
  - destruct (Z.ltb_spec 0 (s `mod` 1024)) as [Hpos|Hzero].
    + assert (s `div` 1024 < 2 ^ 54) by nia. cbv iota.
      rewrite (Z.mod_small (s - s `mod` 1024 + 1024) (2 ^ 64)) by lia.
      replace (s - s `mod` 1024 + 1024) with ((s `div` 1024 + 1) * 1024) by lia.
      rewrite Z.mod_mul by lia. lia.
    + cbv iota. rewrite (Z.mod_small (s - s `mod` 1024 + 0) (2 ^ 64)) by lia.
      replace (s - s `mod` 1024 + 0) with (s `div` 1024 * 1024) by lia.
      rewrite Z.mod_mul by lia. lia.
  - assert (Hdiv : s `div` 1024 = 2 ^ 54 - 1) by nia.
    assert (0 < s `mod` 1024) by lia.
    rewrite (proj2 (Z.ltb_lt 0 (s `mod` 1024))) by lia.
    replace (s - s `mod` 1024 + 1024) with (1 * 2 ^ 64) by lia.
    by rewrite Z.mod_mul.
Qed.

Lemma alignBufSize_least_multiple_witness :
  (_alignBufSize 1025 mod IO_BUF_SIZE = 0 ∧
   1025 ≤ _alignBufSize 1025 < 1025 + IO_BUF_SIZE) ∧
  _alignBufSize (2 ^ SIZE_WIDTH - 1) = 0.
Proof.
  split.
  - apply (alignBufSize_least_multiple 1025). by vm_compute.
  - apply (alignBufSize_least_multiple (2 ^ SIZE_WIDTH - 1)). by vm_compute.
Defined.

(** X2.  A successful [bufAppend] of [n > 0] bytes to a well-formed buffer with
    room left in [size_t]: the buffer stays well formed, it holds the old
    bytes followed by the [n] new ones, and the capacity is the old one
    when that suffices (the allocator is then not called) and the aligned
    new length otherwise. *)
Theorem bufAppend_appends b bytes n plan ob plan' :
  buf_ok b →
  0 < n ≤ Z.of_nat (length bytes) →
  len b + n ≤ SIZE_LIMIT →
  bufAppend (Some b) (Some bytes) n plan = (1, ob, plan') →
  ∃ b',
    ob = Some b' ∧ buf_ok b' ∧
    len b' = len b + n ∧
    contents b' = contents b ++ take (Z.to_nat n) bytes ∧
    size b' = Z.max (size b) (_alignBufSize (len b + n)) ∧
    (_alignBufSize (len b + n) ≤ size b → plan' = plan).
Proof.
  intros Hok Hn Hfit Happ.
  destruct (bufAppend_grows b bytes n plan 1 ob plan' Hok Hn Hfit Happ eq_refl)
    as (b' & -> & Hok' & _ & Hlen & Hc).
  exists b'. split_and!; try done.
  - unfold bufAppend in Happ.
    rewrite (proj2 (Z.ltb_lt _ _) (proj1 Hn)) in Happ.
    destruct Hok as (Hl & _ & _).
    rewrite (to_size_t_small (len b + n)) in Happ
      by (assert (SIZE_LIMIT < 2 ^ SIZE_WIDTH) by reflexivity; lia).
    destruct (Z.ltb_spec (size b) (_alignBufSize (len b + n))).
    + destruct (_alloc _ _ _) as [[blk|] ?]; simplify_eq. cbn. lia.
    + simplify_eq. cbn. lia.
  - intros Hroom. unfold bufAppend in Happ.
    rewrite (proj2 (Z.ltb_lt _ _) (proj1 Hn)) in Happ.
    destruct Hok as (Hl & _ & _).
    rewrite (to_size_t_small (len b + n)) in Happ
      by (assert (SIZE_LIMIT < 2 ^ SIZE_WIDTH) by reflexivity; lia).
    rewrite (proj2 (Z.ltb_ge _ _) Hroom) in Happ. by simplify_eq.
Qed.

Lemma bufAppend_appends_witness :
  ∃ b',
    (bufAppend (Some buf_ABCDE) (Some ["F"; "G"; "H"]%byte) 2 [AllocFail]).1.2
      = Some b' ∧ buf_ok b' ∧
    len b' = 5 + 2 ∧
    contents b' = contents buf_ABCDE ++ take (Z.to_nat 2) ["F"; "G"; "H"]%byte ∧
    size b' = Z.max 1024 (_alignBufSize (5 + 2)) ∧
    (_alignBufSize (5 + 2) ≤ 1024 → [AllocFail] = [AllocFail]).
Proof.
  apply (bufAppend_appends buf_ABCDE ["F"; "G"; "H"]%byte 2 [AllocFail] _ [AllocFail]).
  - apply buf_ABCDE_ok.
  - by vm_compute.
  - by vm_compute.
  - by vm_compute.
Defined.

(** X3.  On a well-formed buffer [bufHasData] is 1 exactly when the buffer
    holds at least one byte, and the bytes [bufPeek] shows are the bytes
    [bufExtract] hands over. *)
Theorem bufHasData_iff_contents b lenDest :
  buf_ok b →
  (bufHasData (Some b) = 1 ↔ contents b ≠ []) ∧
  (bufHasData (Some b) = 0 ↔ contents b = []) ∧
  bytes_of (bufPeek (Some b) lenDest).1 (bufPeek (Some b) lenDest).2 = contents b ∧
  bytes_of (bufExtract (Some b) lenDest).1.1 (bufExtract (Some b) lenDest).1.2
    = contents b.
Proof.
  intros Hok. pose proof (bufHasData_contents b Hok) as Hiff.
  split_and!; try done.
  destruct (bufHasData_cases (Some b)) as [H0|H1].
  - split; [|done]. intros _.
    destruct (decide (contents b = [])) as [Hnil|Hne]; [done|].
    apply Hiff in Hne. congruence.
  - rewrite H1. split; [done|]. intros Hnil. by apply Hiff in H1.
Qed.

Lemma bufHasData_iff_contents_witness :
  (bufHasData (Some buf_ABCDE) = 1 ↔ contents buf_ABCDE ≠ []) ∧
  (bufHasData (Some buf_ABCDE) = 0 ↔ contents buf_ABCDE = []) ∧
  bytes_of (bufPeek (Some buf_ABCDE) 0).1 (bufPeek (Some buf_ABCDE) 0).2
    = contents buf_ABCDE ∧
  bytes_of (bufExtract (Some buf_ABCDE) 0).1.1 (bufExtract (Some buf_ABCDE) 0).1.2
    = contents buf_ABCDE.
Proof. apply (bufHasData_iff_contents buf_ABCDE 0), buf_ABCDE_ok. Defined.

(** ** socket.c *)

(** What [send] does, whatever the kernel decides: it takes [k] bytes from
    the front, [0 ≤ k ≤ n], and a failure counts as [k = 0]. *)
Lemma send_spec fd bytes n o ret o1 :
  0 ≤ n →
  send fd bytes n o = (ret, o1) →
  let k := if ret <? 0 then 0 else ret in
  0 ≤ k ≤ n ∧
  alloc_plan o1 = alloc_plan o ∧
  tx_of o1 fd = tx_of o fd ++ take (Z.to_nat k) bytes.
Proof.
  intros Hn Hsend. unfold send in Hsend. unfold tx_of.
  destruct (send_plan o) as [|w rest].
  - injection Hsend as <- <-. rewrite (proj2 (Z.ltb_ge n 0)) by lia. cbn.
    rewrite lookup_insert_eq. by split_and!.
  - destruct (Z.ltb_spec w 0).
    + injection Hsend as <- <-. cbn. rewrite app_nil_r. split_and!; [lia|lia|done|done].
    + injection Hsend as <- <-. rewrite (proj2 (Z.ltb_ge (Z.min w n) 0)) by lia. cbn.
      rewrite lookup_insert_eq. split_and!; [lia|lia|done|done].
Qed.

(** [socketWrite] on a buffer with data, when the allocator serves the
    request for the unwritten rest: [k] bytes go to the kernel, the others
    stay in the buffer, and the result is 0 exactly when [k] is. *)
Lemma socketWrite_spec fd b o :
  buf_ok b → bufHasData (Some b) = 1 →
  head (alloc_plan o) ≠ Some AllocFail →
  ∃ k b' o',
    0 ≤ k ≤ len b ∧
    socketWrite fd (Some b) o = (if k =? 0 then 0 else 1, Some b', o') ∧
    buf_ok b' ∧
    len b' = len b - k ∧
    contents b' = drop (Z.to_nat k) (contents b) ∧
    tx_of o' fd = tx_of o fd ++ take (Z.to_nat k) (contents b).
Proof.
  intros Hok Hdata Halloc.
  pose proof Hok as (Hlen & Hsz & Hblk).
  apply bufHasData_true in Hdata as Hd. destruct Hd as [[blk Hblk'] Hpos].
  rewrite Hblk' in Hblk.
  assert (Hlim : SIZE_LIMIT < 2 ^ SIZE_WIDTH) by reflexivity.
  assert (Hcont : contents b = take (Z.to_nat (len b)) (blk_bytes blk))
    by (unfold contents, bytes_of; by rewrite Hblk').
  unfold socketWrite. rewrite Hdata. cbn [truthy Z.eqb negb bufExtract].
  rewrite Hblk'. cbn [from_option].
  destruct (send fd (blk_bytes blk) (len b) o) as [ret o1] eqn:Hsend.
  destruct (send_spec fd (blk_bytes blk) (len b) o ret o1 ltac:(lia) Hsend)
    as (Hk & Hplan & Htx).
  set (k := if ret <? 0 then 0 else ret) in *.
  rewrite (to_size_t_small k) by lia.
  assert (Htake : take (Z.to_nat k) (blk_bytes blk) = take (Z.to_nat k) (contents b)).
  { rewrite Hcont, take_take. f_equal. lia. }
  exists k.
  destruct (Z.ltb_spec k (len b)) as [Hlt|Hge].
  - rewrite (to_size_t_small (len b - k)) by lia.
    destruct (bufAppend _ _ _ _) as [[r ob] plan1] eqn:Happ.
    pose proof (bufAppend_succeeds (Some (_resetBuf b))
                  (Some (drop (Z.to_nat k) (blk_bytes blk))) (len b - k)
                  (alloc_plan o1) ltac:(eauto) ltac:(by rewrite Hplan)) as Hr.
    rewrite Happ in Hr. cbn in Hr. subst r.
    destruct (bufAppend_grows (_resetBuf b) (drop (Z.to_nat k) (blk_bytes blk))
                (len b - k) (alloc_plan o1) 1 ob plan1)
      as (b' & -> & Hok' & _ & Hlen' & Hc');
      [apply zero_buf_ok' | | | exact Happ | reflexivity | ].
    + rewrite length_drop. lia.
    + cbn. lia.
    + exists b', (set_alloc_plan plan1 o1). cbn in Hlen', Hc'.
      refine (conj Hk (conj _ (conj Hok' (conj _ (conj _ _))))).
      * by destruct (k =? 0).
      * lia.
      * rewrite Hc', Hcont, take_drop_commute.
        by replace (Z.to_nat k + Z.to_nat (len b - k))%nat with (Z.to_nat (len b)) by lia.
      * change (tx_of (set_alloc_plan plan1 o1) fd) with (tx_of o1 fd).
        by rewrite Htx, Htake.
  - assert (k = len b) as Hk' by lia.
    exists (_resetBuf b), o1.
    refine (conj Hk (conj _ (conj (zero_buf_ok' b) (conj _ (conj _ _))))).
    + by destruct (k =? 0).
    + cbn. lia.
    + rewrite Hk'. rewrite drop_ge; [done|].
      pose proof (length_contents b Hok). lia.
    + by rewrite Htx, Htake.
Qed.

(** X4.  [socketRead] neither loses nor invents a byte.  On a well-formed
    buffer with room for one more read, whatever the result: the buffer
    stays well formed, and the buffer followed by the kernel's queue holds
    the same bytes as before.  A result of 1 moved between 1 and
    [IO_BUF_SIZE] bytes; a result of 0 moved none.  With nothing queued
    (end of file and error alike) the result is 0 and the environment is
    untouched.  The queues of the other descriptors are never touched. *)
Theorem socketRead_conserves_bytes fd b o r ob o' :
  buf_ok b → len b + IO_BUF_SIZE ≤ SIZE_LIMIT →
  socketRead fd (Some b) o = (r, ob, o') →
  ∃ b',
    ob = Some b' ∧ buf_ok b' ∧
    contents b' ++ rx_of o' fd = contents b ++ rx_of o fd ∧
    (r = 1 ∧ 0 < len b' - len b ≤ IO_BUF_SIZE ∨
     r = 0 ∧ b' = b ∧ rx_queue o' = rx_queue o) ∧
    (rx_of o fd = [] → r = 0 ∧ o' = o) ∧
    ∀ d, d ≠ fd → rx_of o' d = rx_of o d.
Proof.
  intros Hok Hfit Hread. unfold socketRead, recv_peek in Hread.
  destruct (rx_of o fd) as [|x q] eqn:Hq.
  { assert (r = 0 ∧ ob = Some b ∧ o' = o) as (-> & -> & ->)
      by (destruct (bool_decide _); cbn in Hread; by simplify_eq).
    exists b. rewrite Hq. split_and!; [done|done|done|by right|done|done]. }
  set (n := Z.min IO_BUF_SIZE (Z.of_nat (length (x :: q)))) in *.
  assert (Hn : 0 < n ≤ IO_BUF_SIZE)
    by (subst n; unfold IO_BUF_SIZE; cbn [length]; lia).
  rewrite (proj2 (Z.ltb_lt 0 n)) in Hread by lia.
  destruct (bufAppend _ _ _ _) as [[ok buf1] plan1] eqn:Happ.
  pose proof (bufAppend_cases (Some b) (Some (take (Z.to_nat IO_BUF_SIZE) (x :: q)))
                n (alloc_plan o)) as Hcases.
  rewrite Happ in Hcases. cbn in Hcases.
  destruct Hcases as [->| ->]; cbn [truthy Z.eqb negb] in Hread;
    injection Hread as <- <- <-.
  - apply bufAppend_zero_unchanged in Happ as ->.
    exists b.
    change (rx_of (set_alloc_plan plan1 o) fd) with (rx_of o fd). rewrite Hq.
    split_and!; [done|done|done|by right|done|done].
  - destruct (bufAppend_grows b (take (Z.to_nat IO_BUF_SIZE) (x :: q)) n
                (alloc_plan o) 1 buf1 plan1 Hok)
      as (b' & -> & Hok' & _ & Hlen' & Hc');
      [rewrite length_take; lia | lia | exact Happ | reflexivity | ].
    exists b'. split_and!; [done|done| | |done|].
    + unfold recv_consume, rx_of at 1. cbn. rewrite lookup_insert_eq. cbn.
      change (rx_of (set_alloc_plan plan1 o) fd) with (rx_of o fd).
      rewrite Hq, Hc', take_take, <- app_assoc.
      replace (Z.to_nat n `min` Z.to_nat IO_BUF_SIZE)%nat with (Z.to_nat n) by lia.
      by rewrite take_drop.
    + left. split; [done|lia].
    + intros d Hd. unfold recv_consume, rx_of. cbn. by rewrite lookup_insert_ne.
Qed.

Lemma socketRead_conserves_bytes_witness :
  ∃ b',
    (socketRead 5 (Some buf_ABCDE) (set_alloc_plan [] demo_os_rx)).1.2 = Some b' ∧
    buf_ok b' ∧
    contents b' ++ rx_of (socketRead 5 (Some buf_ABCDE) (set_alloc_plan [] demo_os_rx)).2 5
    = contents buf_ABCDE ++ rx_of (set_alloc_plan [] demo_os_rx) 5 ∧
    (1 = 1 ∧ 0 < len b' - len buf_ABCDE ≤ IO_BUF_SIZE ∨
     1 = 0 ∧ b' = buf_ABCDE ∧
     rx_queue (socketRead 5 (Some buf_ABCDE) (set_alloc_plan [] demo_os_rx)).2
     = rx_queue (set_alloc_plan [] demo_os_rx)) ∧
    (rx_of (set_alloc_plan [] demo_os_rx) 5 = [] →
     1 = 0 ∧ (socketRead 5 (Some buf_ABCDE) (set_alloc_plan [] demo_os_rx)).2
             = set_alloc_plan [] demo_os_rx) ∧
    ∀ d, d ≠ 5 →
      rx_of (socketRead 5 (Some buf_ABCDE) (set_alloc_plan [] demo_os_rx)).2 d
      = rx_of (set_alloc_plan [] demo_os_rx) d.
Proof.
  apply (socketRead_conserves_bytes 5 buf_ABCDE (set_alloc_plan [] demo_os_rx) 1).
  - apply buf_ABCDE_ok.
  - by vm_compute.
  - by vm_compute.
Defined.

(** X5.  [socketWrite] neither loses nor repeats a byte as long as the
    allocator serves the request for the unwritten rest.  On a well-formed
    buffer, whatever [send] does: the buffer stays well formed, and the
    bytes the kernel has accepted followed by the buffer are the same
    sequence as before.  The result is 1 exactly when the buffer was empty
    (then [send] is not called) or at least one byte was written. *)
Theorem socketWrite_conserves_bytes fd b o r ob o' :
  buf_ok b → head (alloc_plan o) ≠ Some AllocFail →
  socketWrite fd (Some b) o = (r, ob, o') →
  ∃ b',
    ob = Some b' ∧ buf_ok b' ∧
    tx_of o' fd ++ contents b' = tx_of o fd ++ contents b ∧
    (r = 1 ∨ r = 0) ∧
    (r = 1 ↔ contents b = [] ∨ len b' < len b) ∧
    (contents b = [] → o' = o).
Proof.
  intros Hok Halloc Hwrite.
  destruct (bufHasData_cases (Some b)) as [Hnone|Hdata].
  - assert (Hnil : contents b = []).
    { destruct (decide (contents b = [])) as [|Hne]; [done|].
      apply (bufHasData_contents b Hok) in Hne. congruence. }
    unfold socketWrite in Hwrite. rewrite Hnone in Hwrite. cbn in Hwrite.
    simplify_eq. exists b.
    split_and!; [done|done|done|by left| |done].
    split; [by left|done].
  - assert (Hne : contents b ≠ []) by by apply (bufHasData_contents b Hok).
    destruct (socketWrite_spec fd b o Hok Hdata Halloc)
      as (k & b' & o1 & Hk & Hw & Hok' & Hlen & Hc & Htx).
    rewrite Hw in Hwrite. injection Hwrite as <- <- <-. exists b'.
    split_and!; [done|done| | | |done].
    + rewrite Htx, Hc, <- app_assoc. by rewrite take_drop.
    + destruct (k =? 0); auto.
    + destruct (Z.eqb_spec k 0); split.
      * discriminate.
      * intros [?|?]; [done|lia].
      * intros _. right. lia.
      * done.
Qed.

Lemma socketWrite_conserves_bytes_witness :
  ∃ b',
    (socketWrite 5 (Some buf_ABCDE) demo_os_partial).1.2 = Some b' ∧ buf_ok b' ∧
    tx_of (socketWrite 5 (Some buf_ABCDE) demo_os_partial).2 5 ++ contents b'
    = tx_of demo_os_partial 5 ++ contents buf_ABCDE ∧
    (1 = 1 ∨ 1 = 0) ∧
    (1 = 1 ↔ contents buf_ABCDE = [] ∨ len b' < len buf_ABCDE) ∧
    (contents buf_ABCDE = [] →
     (socketWrite 5 (Some buf_ABCDE) demo_os_partial).2 = demo_os_partial).
Proof.
  apply (socketWrite_conserves_bytes 5 buf_ABCDE demo_os_partial 1).
  - apply buf_ABCDE_ok.
  - by vm_compute.
  - by vm_compute.
Defined.

(** ** server.c *)

Section MoreReactor.

Context {platform : Platform} {provider : Provider}.

Lemma _removeSocket_record fd s : sock (_removeSocket fd s) fd = zero_socket.
Proof.
  unfold _removeSocket.
  set (s1 := if isServer (sock s fd) then _ else _). clearbody s1.
  destruct (fd =? _); unfold sock; cbn; by rewrite lookup_insert_eq.
Qed.

(** X6.  [_removeSocket] destroys the socket whatever the Close callback does:
    afterwards the descriptor is in neither interest set, it is closed,
    and its record is the all-zero record with both buffers empty. *)
Theorem _removeSocket_destroys fd s :
  (fd ∉ _socketReadSet (_removeSocket fd s)) ∧
  (fd ∉ _socketWriteSet (_removeSocket fd s)) ∧
  (fd ∉ open_fds (os (_removeSocket fd s))) ∧
  sock (_removeSocket fd s) fd = Socket (Buf None 0 0) (Buf None 0 0) false false.
Proof.
  destruct (_removeSocket_unregisters fd s) as (Hr & Hw & Hc).
  split_and!; try done. apply _removeSocket_record.
Qed.

(** X7.  [_addSocket] refuses a descriptor outside the table and then changes
    nothing.  For a descriptor of the table it returns 1, puts the
    descriptor in the read-interest set, raises [_highestSocket] if
    needed, and overwrites the record with a fresh one (keep-alive, not a
    server, both buffers empty) whatever an earlier connection left there;
    the write-interest set, the other records, the environment and the
    dispatched events are untouched. *)
Theorem _addSocket_registers fd s :
  (fd ≤ INVALID_SOCKET ∨ SOCKET_MAX ≤ fd → _addSocket fd s = (0, s)) ∧
  (INVALID_SOCKET < fd < SOCKET_MAX →
     (_addSocket fd s).1 = 1 ∧
     sock (_addSocket fd s).2 fd = Socket (Buf None 0 0) (Buf None 0 0) true false ∧
     _socketReadSet (_addSocket fd s).2 = {[fd]} ∪ _socketReadSet s ∧
     _highestSocket (_addSocket fd s).2 = Z.max fd (_highestSocket s) ∧
     _socketWriteSet (_addSocket fd s).2 = _socketWriteSet s ∧
     (∀ d, d ≠ fd → sock (_addSocket fd s).2 d = sock s d) ∧
     os (_addSocket fd s).2 = os s ∧
     dispatched (_addSocket fd s).2 = dispatched s).
Proof.
  unfold _addSocket, _isValidSocket. split.
  - intros [Hlo|Hhi].
    + by rewrite (proj2 (Z.ltb_ge INVALID_SOCKET fd)) by lia.
    + rewrite (proj2 (Z.ltb_ge fd SOCKET_MAX)) by lia. by rewrite andb_false_r.
  - intros [Hlo Hhi].
    rewrite (proj2 (Z.ltb_lt _ _) Hlo), (proj2 (Z.ltb_lt _ _) Hhi). cbn.
    destruct (Z.ltb_spec (_highestSocket s) fd); cbn; unfold sock; cbn;
      rewrite lookup_insert_eq; (split_and!; try done; try lia);
      intros d Hd; by rewrite lookup_insert_ne.
Qed.

(** X8.  [_checkClientSocket] keeps a registered client exactly when it has
    output to flush or is to be kept alive, and it enables write-interest
    exactly in the first case; neither answer depends on what the Close
    callback does. *)
Theorem _checkClientSocket_keeps_iff cfd s :
  (cfd ∈ _socketReadSet (_checkClientSocket cfd s) ↔
     cfd ∈ _socketReadSet s ∧
     (bufHasData (Some (oBuf (sock s cfd))) = 1 ∨ keepAlive (sock s cfd) = true)) ∧
  (bufHasData (Some (oBuf (sock s cfd))) = 1 →
     cfd ∈ _socketWriteSet (_checkClientSocket cfd s) ∧
     _socketReadSet (_checkClientSocket cfd s) = _socketReadSet s) ∧
  (bufHasData (Some (oBuf (sock s cfd))) = 0 → keepAlive (sock s cfd) = true →
     _checkClientSocket cfd s = s).
Proof.
  unfold _checkClientSocket.
  destruct (bufHasData_cases (Some (oBuf (sock s cfd)))) as [Hno|Hyes].
  - rewrite Hno. cbn [truthy Z.eqb negb].
    destruct (keepAlive (sock s cfd)) eqn:Hkeep; cbn [negb].
    + split_and!; [|done|done]. split; [intros ?; split; auto|by intros [? _]].
    + split_and!; [|done|done]. split.
      * intros Hin. by apply _removeSocket_unregisters in Hin.
      * intros [_ [?|?]]; done.
  - rewrite Hyes. cbn [truthy Z.eqb negb].
    split_and!; [|intros _|done].
    + split; [intros ?; split; auto|by intros [? _]].
    + split; [|done]. unfold _enableSocketWrite, FD_SET. cbn. set_solver.
Qed.

(** X9.  [serverCloseSocket] twice is [serverCloseSocket] once. *)
Theorem serverCloseSocket_idempotent fd s :
  serverCloseSocket fd (serverCloseSocket fd s) = serverCloseSocket fd s.
Proof.
  unfold serverCloseSocket.
  destruct (_isValidSocket fd); cbn [andb]; [|done].
  destruct (isServer (sock s fd)) eqn:Hrole; cbn [negb].
  - by rewrite Hrole.
  - set (x := Socket _ _ false _).
    change (sock (_enableSocketWrite fd (set_sock fd x s)) fd)
      with (sock (set_sock fd x s) fd).
    rewrite sock_set_sock. subst x. cbn [isServer iBuf oBuf keepAlive negb].
    unfold _enableSocketWrite, set_sock, set_writeSet, FD_SET. cbn.
    rewrite insert_insert_eq. f_equal. set_solver.
Qed.


(** *** Opening and accepting *)

(** X10.  [serverAddServerSocket] either fails, returning [INVALID_SOCKET] with
    the registry as it was and no descriptor left open that was not open
    before (a listening descriptor that does not fit the table is closed
    again), or returns a descriptor of the table that is open, registered
    for reading, and marked as a keep-alive server with empty buffers. *)
Theorem serverAddServerSocket_outcome s :
  ((serverAddServerSocket s).1 = INVALID_SOCKET ∧
   _sockets (serverAddServerSocket s).2 = _sockets s ∧
   _socketReadSet (serverAddServerSocket s).2 = _socketReadSet s ∧
   _socketWriteSet (serverAddServerSocket s).2 = _socketWriteSet s ∧
   _highestSocket (serverAddServerSocket s).2 = _highestSocket s ∧
   open_fds (os (serverAddServerSocket s).2) ⊆ open_fds (os s)) ∨
  (INVALID_SOCKET < (serverAddServerSocket s).1 < SOCKET_MAX ∧
   head (listen_plan (os s)) = Some (serverAddServerSocket s).1 ∧
   (serverAddServerSocket s).1 ∈ _socketReadSet (serverAddServerSocket s).2 ∧
   (serverAddServerSocket s).1 ∈ open_fds (os (serverAddServerSocket s).2) ∧
   sock (serverAddServerSocket s).2 (serverAddServerSocket s).1
   = Socket (Buf None 0 0) (Buf None 0 0) true true).
Proof.
  unfold serverAddServerSocket, socketOpenServer.
  destruct (listen_plan (os s)) as [|r rest] eqn:Hplan.
  { left. unfold _addSocket, _isValidSocket, INVALID_SOCKET. cbn.
    split_and!; done. }
  destruct (Z.leb_spec 0 r) as [Hr|Hr].
  - unfold _addSocket, _isValidSocket, INVALID_SOCKET.
    rewrite (proj2 (Z.ltb_lt (-1) r)) by lia. cbn [andb].
    destruct (Z.ltb_spec r SOCKET_MAX) as [Hfit|Hfull].
    + right. cbn [truthy Z.eqb negb fst snd].
      destruct (_highestSocket _ <? r); cbn; unfold sock, FD_SET; cbn;
        rewrite !lookup_insert_eq; cbn;
        (split_and!; [lia|lia|done|set_solver|set_solver|done]).
    + left. cbn [truthy Z.eqb negb]. rewrite (proj2 (Z.leb_le 0 r)) by lia.
      cbn. unfold socketClose. cbn. split_and!; try done. set_solver.
  - left. unfold _addSocket, _isValidSocket, INVALID_SOCKET. cbn.
    split_and!; done.
Qed.

Lemma socketAccept_new sfd o cfd eagain rest :
  accept_plan o = (cfd, eagain) :: rest → 0 ≤ cfd →
  socketAccept sfd o
  = (cfd, set_accept_plan rest (set_open_fds ({[cfd]} ∪ open_fds o) o)).
Proof.
  intros Hplan Hcfd. unfold socketAccept, accept. rewrite Hplan.
  by rewrite (proj2 (Z.leb_le 0 cfd)) by lia.
Qed.

Lemma socketAccept_failed sfd o r eagain rest :
  accept_plan o = (r, eagain) :: rest → r < 0 →
  socketAccept sfd o
  = (if eagain then SOCKET_MAX else INVALID_SOCKET, set_accept_plan rest o).
Proof.
  intros Hplan Hr. unfold socketAccept, accept. rewrite Hplan.
  rewrite (proj2 (Z.leb_gt 0 r)) by lia. by destruct eagain.
Qed.

(** X11.  An accepted descriptor that does not fit the table is closed at once:
    the registry and the dispatched events are as before, and the
    descriptor is not left open. *)
Theorem _handleServerInput_beyond_table sfd s cfd eagain rest :
  accept_plan (os s) = (cfd, eagain) :: rest →
  0 ≤ cfd → SOCKET_MAX ≤ cfd →
  _sockets (_handleServerInput sfd s) = _sockets s ∧
  _socketReadSet (_handleServerInput sfd s) = _socketReadSet s ∧
  _socketWriteSet (_handleServerInput sfd s) = _socketWriteSet s ∧
  _highestSocket (_handleServerInput sfd s) = _highestSocket s ∧
  dispatched (_handleServerInput sfd s) = dispatched s ∧
  open_fds (os (_handleServerInput sfd s)) = open_fds (os s) ∖ {[cfd]}.
Proof.
  intros Hplan Hnn Hfull.
  unfold _handleServerInput. rewrite (socketAccept_new sfd _ _ _ _ Hplan Hnn).
  rewrite (proj2 (Z.leb_le 0 cfd)) by lia.
  unfold _addSocket, _isValidSocket.
  rewrite (proj2 (Z.ltb_ge cfd SOCKET_MAX)) by lia. rewrite andb_false_r.
  cbn. split_and!; try done. set_solver.
Qed.

(** X12.  When [accept] fails for good ([errno] is not [EAGAIN]) the listening
    socket itself is destroyed: it leaves both interest sets, it is closed
    and its record is cleared. *)
Theorem _handleServerInput_accept_failure sfd s r rest :
  accept_plan (os s) = (r, false) :: rest → r < 0 →
  (sfd ∉ _socketReadSet (_handleServerInput sfd s)) ∧
  (sfd ∉ _socketWriteSet (_handleServerInput sfd s)) ∧
  (sfd ∉ open_fds (os (_handleServerInput sfd s))) ∧
  sock (_handleServerInput sfd s) sfd = zero_socket.
Proof.
  intros Hplan Hr.
  unfold _handleServerInput. rewrite (socketAccept_failed sfd _ _ _ _ Hplan Hr).
  rewrite (proj2 (Z.leb_gt 0 INVALID_SOCKET)) by (unfold INVALID_SOCKET; lia).
  destruct (_removeSocket_unregisters sfd (set_os (set_accept_plan rest (os s)) s))
    as (Hr' & Hw & Hc).
  split_and!; try done. apply _removeSocket_record.
Qed.

(** X13.  Accepting a connection on a descriptor of the table: the client
    is registered first (a fresh keep-alive record with empty buffers,
    read-interest, [_highestSocket] raised if needed, write-interest
    untouched, the other records as they were), then [_invokeCallback] is
    called once, with the Accept context that names the listening socket,
    the client and the client's two buffers, and then the client goes
    through [_checkClientSocket] as the callback left it.  An installed
    handler is thus run exactly once on the registry with the client in
    it; without a handler the client simply stays registered. *)
Theorem _handleServerInput_accepts sfd s cfd eagain rest :
  accept_plan (os s) = (cfd, eagain) :: rest →
  0 ≤ cfd < SOCKET_MAX →
  ∃ s2,
    _handleServerInput sfd s
    = _checkClientSocket cfd
        (_invokeCallback EVENT_SOCKET_ACCEPT sfd cfd (Some cfd) (Some cfd) s2) ∧
    _callback s2 = _callback s ∧
    _socketReadSet s2 = {[cfd]} ∪ _socketReadSet s ∧
    _highestSocket s2 = Z.max cfd (_highestSocket s) ∧
    _socketWriteSet s2 = _socketWriteSet s ∧
    sock s2 cfd = Socket (Buf None 0 0) (Buf None 0 0) true false ∧
    (∀ d, d ≠ cfd → sock s2 d = sock s d) ∧
    open_fds (os s2) = {[cfd]} ∪ open_fds (os s) ∧
    (∀ f, _callback s = Some f →
       _handleServerInput sfd s
       = _checkClientSocket cfd
           (callback_code f (accept_event sfd cfd)
              (set_dispatched (dispatched s ++ [accept_event sfd cfd]) s2))) ∧
    (_callback s = None →
       _sockets (_handleServerInput sfd s) = _sockets s2 ∧
       _socketReadSet (_handleServerInput sfd s) = {[cfd]} ∪ _socketReadSet s ∧
       _socketWriteSet (_handleServerInput sfd s) = _socketWriteSet s ∧
       _highestSocket (_handleServerInput sfd s) = Z.max cfd (_highestSocket s) ∧
       os (_handleServerInput sfd s) = os s2).
Proof.
  intros Hplan Hcfd.
  set (o1 := set_accept_plan rest (set_open_fds ({[cfd]} ∪ open_fds (os s)) (os s))).
  set (fresh := Socket (Buf None 0 0) (Buf None 0 0) true false).
  set (s2 := set_highest (Z.max cfd (_highestSocket s))
               (set_readSet ({[cfd]} ∪ _socketReadSet s)
                  (set_sock cfd fresh (set_os o1 s)))).
  assert (Hadd : _addSocket cfd (set_os o1 s) = (1, s2)).
  { unfold _addSocket, _isValidSocket, INVALID_SOCKET.
    rewrite (proj2 (Z.ltb_lt (-1) cfd)), (proj2 (Z.ltb_lt cfd SOCKET_MAX)) by lia.
    cbn [andb]. subst s2. unfold FD_SET. cbn.
    destruct (Z.ltb_spec (_highestSocket s) cfd) as [Hlt|Hge].
    - by replace (Z.max cfd (_highestSocket s)) with cfd by lia.
    - replace (Z.max cfd (_highestSocket s)) with (_highestSocket s) by lia.
      by destruct s. }
  assert (Hstep : _handleServerInput sfd s
                  = _checkClientSocket cfd
                      (_invokeCallback EVENT_SOCKET_ACCEPT sfd cfd (Some cfd)
                                       (Some cfd) s2)).
  { unfold _handleServerInput.
    rewrite (socketAccept_new sfd _ _ _ _ Hplan ltac:(lia)).
    rewrite (proj2 (Z.leb_le 0 cfd)) by lia. fold o1. by rewrite Hadd. }
  assert (Hrec : sock s2 cfd = fresh) by (subst s2; apply sock_set_sock).
  exists s2. split_and!; try done.
  - intros d Hd. subst s2.
    change (sock (set_sock cfd fresh (set_os o1 s)) d = sock s d).
    by rewrite sock_set_sock_ne.
  - intros f Hf. rewrite Hstep. unfold _invokeCallback.
    change (_callback s2) with (_callback s). by rewrite Hf.
  - intros Hnone. rewrite Hstep. unfold _invokeCallback.
    change (_callback s2) with (_callback s). rewrite Hnone.
    unfold _checkClientSocket.
    set (s3 := set_dispatched _ s2).
    change (sock s3 cfd) with (sock s2 cfd). rewrite Hrec.
    by cbn.
Qed.

(** *** A tick without work, and shutting down *)

Lemma select_count_disjoint nfds (ready set : gset Z) :
  (∀ d, d ∈ ready → d ∉ set) → select_count nfds ready set = 0.
Proof.
  intros Hdisj. unfold select_count.
  assert (filter (λ d, d < nfds ∧ d ∈ ready) set = (∅ : gset Z)) as ->.
  { apply set_eq. intros d. rewrite elem_of_filter. split; [|set_solver].
    intros [[_ Hr] Hs]. by apply Hdisj in Hr. }
  by rewrite elements_empty.
Qed.

(** X14.  A tick in which nothing is ready, with at least one socket
    registered.  When [select] times out, or reports only descriptors
    nobody registered interest in, the tick returns 1 after it has called
    [_invokeCallback] once with the Idle context, on a registry it has not
    touched: an installed handler is run exactly once, with that context,
    and without a handler nothing changes.  When [select] is interrupted
    the tick returns 1, and when it fails otherwise the tick returns 0;
    in both cases no callback is called and the registry is as it was.
    The environment has moved by the one [select] call only. *)
Theorem serverExec_nothing_ready s :
  0 ≤ _highestSocket s →
  (∀ r w rest, select_plan (os s) = SelectReady r w :: rest →
     (∀ d, d ∈ r → d ∉ _socketReadSet s) ∧ (∀ d, d ∈ w → d ∉ _socketWriteSet s)) →
  let s1 := set_os (set_select_plan (tail (select_plan (os s))) (os s)) s in
  let idle := _invokeCallback EVENT_IDLE INVALID_SOCKET INVALID_SOCKET None None s1 in
  serverExec s
  = Some (match select_plan (os s) with
          | SelectError false :: _ => (0, s1)
          | SelectError true :: _ => (1, s1)
          | _ => (1, idle)
          end) ∧
  (∀ f, _callback s = Some f →
     idle = callback_code f idle_event
              (set_dispatched (dispatched s ++ [idle_event]) s1)) ∧
  (_callback s = None →
     _callback idle = None ∧
     _sockets idle = _sockets s ∧
     _socketReadSet idle = _socketReadSet s ∧
     _socketWriteSet idle = _socketWriteSet s ∧
     _highestSocket idle = _highestSocket s ∧
     os idle = os s1).
Proof.
  intros Hhigh Hquiet s1 idle. split_and!.
  - unfold serverExec, select.
    rewrite (proj2 (Z.ltb_ge _ 0) Hhigh).
    destruct (select_plan (os s)) as [|[r w|eintr] rest] eqn:Hplan.
    + rewrite !select_count_disjoint by set_solver.
      by rewrite Z.add_0_l, Z.ltb_irrefl.
    + destruct (Hquiet r w rest eq_refl) as [Hr Hw].
      rewrite !select_count_disjoint by done.
      by rewrite Z.add_0_l, Z.ltb_irrefl.
    + cbn. by destruct eintr.
  - intros f Hf. subst idle. unfold _invokeCallback.
    change (_callback s1) with (_callback s). by rewrite Hf.
  - intros Hnone. subst idle. unfold _invokeCallback.
    change (_callback s1) with (_callback s). by rewrite Hnone.
Qed.

Lemma callbacks_quiet_keep_inv : callbacks_quiet → callbacks_keep registry_inv.
Proof.
  intros Hquiet f context s Hs.
  destruct (Hquiet f context s) as [Hr Hh]. by eapply registry_inv_frame.
Qed.

Lemma _invokeCallback_quiet ev sfd cfd ib ob s :
  callbacks_quiet →
  _socketReadSet (_invokeCallback ev sfd cfd ib ob s) = _socketReadSet s ∧
  _highestSocket (_invokeCallback ev sfd cfd ib ob s) = _highestSocket s.
Proof.
  intros Hquiet. unfold _invokeCallback.
  destruct (_callback s) as [f|]; [|done].
  apply (Hquiet f (EventContext ev sfd cfd ib ob)
                (set_dispatched (dispatched s ++ [EventContext ev sfd cfd ib ob]) s)).
Qed.

Lemma _removeSocket_quiet_callbacks fd s :
  callbacks_quiet →
  _socketReadSet (_removeSocket fd s) = _socketReadSet s ∖ {[fd]}.
Proof.
  intros Hquiet. unfold _removeSocket.
  set (s1 := if isServer (sock s fd) then _ else _).
  assert (Hs1 : _socketReadSet s1 = _socketReadSet s).
  { subst s1. destruct (isServer _); by apply _invokeCallback_quiet. }
  clearbody s1. cbn. rewrite <- Hs1. by destruct (fd =? _).
Qed.

Lemma _removeAllSockets_loop_empties n : ∀ fd s,
  callbacks_quiet →
  registry_inv s →
  0 ≤ fd → SOCKET_MAX - fd ≤ Z.of_nat n →
  (∀ d, d ∈ _socketReadSet s → fd ≤ d) →
  ∃ s', _removeAllSockets_loop n fd s = Some s' ∧
        _socketReadSet s' = ∅ ∧ _highestSocket s' = INVALID_SOCKET.
Proof.
  induction n as [|n IH]; intros fd s Hquiet Hs Hfd Hn Hlow;
    cbn [_removeAllSockets_loop];
    destruct (Z.leb_spec fd (_highestSocket s)) as [Hle|Hgt].
  - destruct Hs as [Hdom [[_ Hnone]|[Hin _]]]; [unfold INVALID_SOCKET in *; lia|].
    apply Hdom in Hin. lia.
  - exists s. split; [done|].
    destruct Hs as [Hdom [[He Hnone]|[Hin _]]]; [done|].
    apply Hlow in Hin. lia.
  - apply IH; [done| |lia|lia|].
    + unfold FD_ISSET. case_bool_decide; [|done].
      by apply _removeSocket_inv; [apply callbacks_quiet_keep_inv|].
    + intros d Hd. unfold FD_ISSET in Hd. case_bool_decide as Hfdin.
      * rewrite _removeSocket_quiet_callbacks in Hd by done.
        apply elem_of_difference in Hd as [Hd Hne].
        apply Hlow in Hd. assert (d ≠ fd) by set_solver. lia.
      * pose proof (Hlow d Hd). assert (d ≠ fd) by (intros ->; done). lia.
  - exists s. split; [done|].
    destruct Hs as [Hdom [[He Hnone]|[Hin _]]]; [done|].
    apply Hlow in Hin. lia.
Qed.

(** X15.  [serverStop] ends and leaves no socket behind, as long as the
    callbacks do not open or close sockets themselves: the read-interest
    set is empty, [_highestSocket] is the sentinel, and the next tick
    reports that there are no connections. *)
Theorem serverStop_empties_registry s :
  callbacks_quiet →
  registry_inv s →
  ∃ s',
    serverStop s = Some s' ∧
    _socketReadSet s' = ∅ ∧
    _highestSocket s' = INVALID_SOCKET ∧
    serverExec s' = Some (2, s').
Proof.
  intros Hquiet Hs. unfold serverStop, _removeAllSockets.
  destruct (_removeAllSockets_loop_empties (Z.to_nat SOCKET_MAX) 0 s Hquiet Hs)
    as (s1 & -> & Hr & Hh); [lia|lia| |].
  { intros d Hd. by apply Hs in Hd as [? _]. }
  cbn. eexists. split; [reflexivity|].
  assert (Hr2 : _socketReadSet
                  (_invokeCallback EVENT_STOP INVALID_SOCKET INVALID_SOCKET None None s1)
                = ∅ ∧
                _highestSocket
                  (_invokeCallback EVENT_STOP INVALID_SOCKET INVALID_SOCKET None None s1)
                = INVALID_SOCKET).
  { destruct (_invokeCallback_quiet EVENT_STOP INVALID_SOCKET INVALID_SOCKET
                None None s1 Hquiet) as [-> ->]. done. }
  destruct Hr2 as [Hr2 Hh2]. split_and!; [done|done|].
  unfold serverExec. by rewrite Hh2.
Qed.

(** *** One turn of the loop on a client that its own input step destroys *)

(** After [_removeSocket] the record of the descriptor is stored as the
    all-zero record, so that storing an empty output buffer in it, as the
    output step does, changes nothing. *)
Lemma _removeSocket_store_oBuf fd s :
  set_os (os (_removeSocket fd s))
         (store_oBuf fd (Some zero_buf) (_removeSocket fd s))
  = _removeSocket fd s.
Proof.
  unfold _removeSocket.
  set (s1 := if isServer (sock s fd) then _ else _). clearbody s1.
  destruct (fd =? _); unfold store_oBuf, set_sock, set_os, sock; cbn;
    rewrite lookup_insert_eq; cbn; by rewrite insert_insert_eq.
Qed.

(** X16.  An input step on a client that can read nothing destroys the
    client: its record is cleared, it leaves both interest sets and its
    descriptor is closed.  An output step on the same descriptor, which
    the loop of [serverExec] makes in the same turn when [select] reported
    the descriptor writable as well, still runs: its write of the empty
    buffer counts as a success, [_invokeCallback] is called with the Write
    context of the closed descriptor (an installed handler is run with
    it), and unless the callback puts something in the cleared record the
    client is destroyed a second time, with a second Close callback and a
    second [close] of the descriptor. *)
Theorem destroyed_client_still_gets_output_step cfd s :
  isServer (sock s cfd) = false →
  (socketRead cfd (Some (iBuf (sock s cfd))) (os s)).1.1 = 0 →
  let gone := _handleInput cfd s in
  sock gone cfd = zero_socket ∧
  (cfd ∉ _socketReadSet gone) ∧
  (cfd ∉ _socketWriteSet gone) ∧
  (cfd ∉ open_fds (os gone)) ∧
  (socketWrite cfd (Some (oBuf (sock gone cfd))) (os gone)).1.1 = 1 ∧
  write_attempted cfd gone = gone ∧
  (∀ f, _callback gone = Some f →
     write_delivered cfd gone
     = callback_code f (write_event cfd)
         (set_dispatched (dispatched gone ++ [write_event cfd]) gone)) ∧
  (sock (write_delivered cfd gone) cfd = zero_socket →
     _handleOutput cfd gone
     = _removeSocket cfd (_disableSocketWrite cfd (write_delivered cfd gone))) ∧
  (∀ n readSet writeSet,
     FD_ISSET cfd readSet = true → FD_ISSET cfd writeSet = true →
     cfd ≤ _highestSocket s →
     serverExec_loop (S n) cfd readSet writeSet s
     = serverExec_loop n (cfd + 1) readSet writeSet (_handleOutput cfd gone)).
Proof.
  intros Hclient Hread gone.
  assert (Hgone : gone = _removeSocket cfd (read_attempted cfd s)).
  { subst gone. unfold _handleInput.
    by rewrite Hclient, _handleClientInput_steps, Hread. }
  assert (Hrec : sock gone cfd = zero_socket)
    by (rewrite Hgone; apply _removeSocket_record).
  assert (Hwrite : socketWrite cfd (Some (oBuf (sock gone cfd))) (os gone)
                   = (1, Some zero_buf, os gone))
    by (by rewrite Hrec).
  assert (Hsame : write_attempted cfd gone = gone).
  { unfold write_attempted. rewrite Hwrite, Hgone.
    apply _removeSocket_store_oBuf. }
  destruct (_removeSocket_unregisters cfd (read_attempted cfd s)) as (Hr & Hw & Hc).
  rewrite <- Hgone in Hr, Hw, Hc.
  split_and!; try done.
  - by rewrite Hwrite.
  - intros f Hf. unfold write_delivered. rewrite Hsame.
    unfold _invokeCallback. by rewrite Hf.
  - intros Hleft. rewrite _handleOutput_steps, Hwrite, Hleft.
    by cbn.
  - intros n readSet writeSet Hrs Hws Hle. cbn [serverExec_loop].
    by rewrite (proj2 (Z.leb_le _ _) Hle), Hrs, Hws.
Qed.

End MoreReactor.

(** ** The further properties on the concrete configuration *)

Lemma _addSocket_registers_witness :
  (@_addSocket linux 5 demo).1 = 1 ∧
  sock (@_addSocket linux 5 demo).2 5 = Socket (Buf None 0 0) (Buf None 0 0) true false ∧
  _socketWriteSet (@_addSocket linux 5 demo).2 = _socketWriteSet demo ∧
  @_addSocket linux 1024 demo = (0, demo).
Proof.
  destruct (@_addSocket_registers linux 5 demo) as [_ Hin].
  destruct (@_addSocket_registers linux 1024 demo) as [Hout _].
  destruct Hin as (Hret & Hrec & _ & _ & Hwrite & _); [by vm_compute|].
  split_and!; [done|done|done|]. apply Hout. right. by vm_compute.
Defined.


Lemma closing_provider_quiet : @callbacks_quiet closing_provider.
Proof.
  intros f context s. destruct f as [|f]; [|done].
  cbn. unfold closing_callback.
  destruct (event context); try done.
  unfold serverCloseSocket. by destruct (_ && _).
Qed.

Lemma _handleServerInput_beyond_table_witness :
  _sockets (@_handleServerInput linux closing_provider 3
              (demo_server true None demo_os_accept_2000))
  = _sockets (demo_server true None demo_os_accept_2000) ∧
  _socketReadSet (@_handleServerInput linux closing_provider 3
                    (demo_server true None demo_os_accept_2000))
  = _socketReadSet (demo_server true None demo_os_accept_2000) ∧
  _socketWriteSet (@_handleServerInput linux closing_provider 3
                     (demo_server true None demo_os_accept_2000))
  = _socketWriteSet (demo_server true None demo_os_accept_2000) ∧
  _highestSocket (@_handleServerInput linux closing_provider 3
                    (demo_server true None demo_os_accept_2000))
  = _highestSocket (demo_server true None demo_os_accept_2000) ∧
  dispatched (@_handleServerInput linux closing_provider 3
                (demo_server true None demo_os_accept_2000))
  = dispatched (demo_server true None demo_os_accept_2000) ∧
  open_fds (os (@_handleServerInput linux closing_provider 3
                  (demo_server true None demo_os_accept_2000)))
  = open_fds (os (demo_server true None demo_os_accept_2000)) ∖ {[2000]}.
Proof.
  apply (@_handleServerInput_beyond_table linux closing_provider 3
           (demo_server true None demo_os_accept_2000) 2000 false []).
  - reflexivity.
  - by vm_compute.
  - by vm_compute.
Defined.

Lemma _handleServerInput_accept_failure_witness :
  (3 ∉ _socketReadSet (@_handleServerInput linux closing_provider 3
                         (demo_server true (Some 0%nat) demo_os_accept_error))) ∧
  (3 ∉ _socketWriteSet (@_handleServerInput linux closing_provider 3
                          (demo_server true (Some 0%nat) demo_os_accept_error))) ∧
  (3 ∉ open_fds (os (@_handleServerInput linux closing_provider 3
                       (demo_server true (Some 0%nat) demo_os_accept_error)))) ∧
  sock (@_handleServerInput linux closing_provider 3
          (demo_server true (Some 0%nat) demo_os_accept_error)) 3 = zero_socket.
Proof.
  apply (@_handleServerInput_accept_failure linux closing_provider 3
           (demo_server true (Some 0%nat) demo_os_accept_error) (-1) []).
  - reflexivity.
  - by vm_compute.
Defined.

Lemma _handleServerInput_accepts_witness :
  ∃ s2,
    @_handleServerInput linux closing_provider 3
      (demo_server true (Some 0%nat) demo_os_accept_7)
    = @_checkClientSocket closing_provider 7
        (closing_callback (accept_event 3 7)
           (set_dispatched [accept_event 3 7] s2)) ∧
    _socketReadSet s2 = {[7]} ∪ {[3; 5]} ∧
    _highestSocket s2 = 7 ∧
    sock s2 7 = Socket (Buf None 0 0) (Buf None 0 0) true false ∧
    7 ∈ _socketReadSet (@_handleServerInput linux closing_provider 3
                          (demo_server true (Some 0%nat) demo_os_accept_7)).
Proof.
  destruct (@_handleServerInput_accepts linux closing_provider 3
              (demo_server true (Some 0%nat) demo_os_accept_7) 7 false [])
    as (s2 & _ & _ & Hr & Hh & _ & Hrec & _ & _ & Hrun & _).
  - reflexivity.
  - by vm_compute.
  - exists s2. split_and!.
    + exact (Hrun 0%nat eq_refl).
    + exact Hr.
    + exact Hh.
    + exact Hrec.
    + by vm_compute.
Defined.

Lemma serverExec_nothing_ready_witness :
  @serverExec linux closing_provider demo
  = Some (1, closing_callback idle_event
               (set_dispatched [idle_event]
                  (set_os (set_select_plan [] demo_os) demo))) ∧
  @serverExec linux closing_provider
    (set_os (set_select_plan [SelectError true] demo_os) demo)
  = Some (1, demo).
Proof.
  destruct (@serverExec_nothing_ready linux closing_provider demo)
    as (Hrun & Hidle & _).
  { by vm_compute. }
  { intros r w rest Hplan. discriminate Hplan. }
  destruct (@serverExec_nothing_ready linux closing_provider
              (set_os (set_select_plan [SelectError true] demo_os) demo))
    as (Hintr & _).
  { by vm_compute. }
  { intros r w rest Hplan. discriminate Hplan. }
  split.
  - etrans; [exact Hrun|]. cbv zeta. rewrite (Hidle 0%nat eq_refl). by vm_compute.
  - exact Hintr.
Defined.

Lemma serverStop_empties_registry_witness :
  ∃ s',
    @serverStop linux closing_provider demo = Some s' ∧
    _socketReadSet s' = ∅ ∧
    _highestSocket s' = INVALID_SOCKET ∧
    @serverExec linux closing_provider s' = Some (2, s').
Proof.
  apply (@serverStop_empties_registry linux closing_provider demo).
  - apply closing_provider_quiet.
  - apply demo_server_inv.
Defined.

Lemma destroyed_client_still_gets_output_step_witness :
  let gone := @_handleInput linux closing_provider 5 (closing_demo demo_os_eof) in
  sock gone 5 = zero_socket ∧
  (5 ∉ open_fds (os gone)) ∧
  @write_delivered closing_provider 5 gone
  = closing_callback (write_event 5)
      (set_dispatched (dispatched gone ++ [write_event 5]) gone) ∧
  @_handleOutput closing_provider 5 gone
  = @_removeSocket closing_provider 5
      (_disableSocketWrite 5 (@write_delivered closing_provider 5 gone)) ∧
  dispatched (@_handleOutput closing_provider 5 gone)
  = [close_client_event 5; write_event 5; close_client_event 5].
Proof.
  intros gone.
  destruct (@destroyed_client_still_gets_output_step linux closing_provider 5
              (closing_demo demo_os_eof))
    as (Hrec & _ & _ & Hclosed & _ & _ & Hrun & Hagain & _).
  - reflexivity.
  - by vm_compute.
  - split_and!.
    + exact Hrec.
    + exact Hclosed.
    + exact (Hrun 0%nat ltac:(by vm_compute)).
    + apply Hagain. by vm_compute.
    + by vm_compute.
Defined.

Lemma _checkClientSocket_keeps_iff_witness :
  5 ∈ _socketReadSet (@_checkClientSocket closing_provider 5 demo) ∧
  5 ∈ _socketWriteSet (@_checkClientSocket closing_provider 5 demo) ∧
  (3 ∈ _socketReadSet (@_checkClientSocket closing_provider 3 demo)) ∧
  ¬ (5 ∈ _socketReadSet
           (@_checkClientSocket closing_provider 5
              (@_removeSocket closing_provider 5 (closing_demo demo_os)))).
Proof.
  destruct (@_checkClientSocket_keeps_iff closing_provider 5 demo) as (Hiff & Hout & _).
  destruct (@_checkClientSocket_keeps_iff closing_provider 3 demo) as (Hiff3 & _ & _).
  destruct (@_checkClientSocket_keeps_iff closing_provider 5
              (@_removeSocket closing_provider 5 (closing_demo demo_os)))
    as (Hgone & _ & _).
  split_and!.
  - apply Hiff. split; [by vm_compute|left; by vm_compute].
  - apply Hout. by vm_compute.
  - apply Hiff3. split; [by vm_compute|right; by vm_compute].
  - intros Hin. apply Hgone in Hin as [Hin _]. revert Hin. by vm_compute.
Defined.
